(** * linda-engine: the concurrency runtime of [linda_core]

    A shallow embedding of the scheduler ([abbey.c]), the synchronisation
    primitives ([ptreaty.c]), the dependency layer ([poseta.c]) and the
    mailbox of [tcpip.c], with the properties of the specification that
    concern them.

    Conventions of the embedding.
    - C arrays are lists together with the separate element count the
      source keeps ([nofTasks], [nofMonks]); a pointer is an address
      ([nat]), [NULL] is [None] where the source tests for it.
    - The values the C library hands back ([realloc], [pthread_create])
      are arguments of the functions that call it.
    - A call that can suspend its thread or leave defined behaviour
      returns a result type that says so. *)

From Stdlib Require Import ZArith Lia Ascii String.
From stdpp Require Import base option list gmap strings.

Local Open Scope nat_scope.

(** ** The C library, as far as the sources use it *)

Module Libc.

(** What [realloc] answers: [NULL], or a block whose first part is the old
    block and whose extension holds whatever the allocator left there;
    [fresh i] is the content found at index [i] of the new block. *)
Inductive realloc_reply (A : Type) : Type :=
  | ReallocNull
  | ReallocOk (fresh : nat -> A).
Arguments ReallocNull {A}.
Arguments ReallocOk {A} fresh.

Definition realloc {A : Type} (old : list A) (n : nat) (r : realloc_reply A)
  : option (list A) :=
  match r with
  | ReallocNull => None
  | ReallocOk fresh =>
      Some (take n old ++ map fresh (seq (length old) (n - length old)))
  end.

(** [calloc n]: [n] zeroed elements. *)
Definition calloc {A : Type} (zero : A) (n : nat) : list A := replicate n zero.

(** [strncpy(dst, src, n)] as far as the resulting C string goes. *)
Definition strncpy (src : string) (n : nat) : string := String.substring 0 n src.

End Libc.

(** ** abbey.c: the scheduler *)

Module Abbey.
Import Libc.

Definition TS_READY : Z := 0.
Definition TS_CREATING : Z := 1.
Definition TS_OPEN : Z := 2.
Definition TS_BUSY : Z := 3.
Definition MAX_TASK_DESCRIPTION_LEN : nat := 64.

(** A function pointer is the function it points to: null, one of the two
    task bodies of poseta.c, or a function of the application. Pointer
    equality is equality of these values. [void] pointers and [pthread_t]
    are kept by their values. *)
Inductive funptr : Type :=
  | fn_null
  | fn_poseta_task
  | fn_tuple_task
  | fn_app (id : nat).

#[export] Instance funptr_eq_dec : EqDecision funptr.
Proof. solve_decision. Defined.

Definition ptr := nat.
Definition pthread_t := nat.

Record Task : Type := mkTask {
  state : Z;
  func : funptr;
  context : ptr;
  description : string
}.

(** The file-scope variables of abbey.c. [abbeyMutex] is [true] while the
    mutex is held. *)
Record Abbey : Type := mkAbbey {
  threadId : list pthread_t;
  task : list Task;
  nofMonks : nat;
  nofTasks : nat;
  abbeyMutex : bool;
  taskBufferContent : nat;
  dedicatedTaskBuffer : nat;
  amountOfMonksBusy : Z
}.

Definition with_threadId (v : list pthread_t) (a : Abbey) : Abbey :=
  mkAbbey v (task a) (nofMonks a) (nofTasks a) (abbeyMutex a)
          (taskBufferContent a) (dedicatedTaskBuffer a) (amountOfMonksBusy a).
Definition with_task (v : list Task) (a : Abbey) : Abbey :=
  mkAbbey (threadId a) v (nofMonks a) (nofTasks a) (abbeyMutex a)
          (taskBufferContent a) (dedicatedTaskBuffer a) (amountOfMonksBusy a).
Definition with_nofMonks (v : nat) (a : Abbey) : Abbey :=
  mkAbbey (threadId a) (task a) v (nofTasks a) (abbeyMutex a)
          (taskBufferContent a) (dedicatedTaskBuffer a) (amountOfMonksBusy a).
Definition with_nofTasks (v : nat) (a : Abbey) : Abbey :=
  mkAbbey (threadId a) (task a) (nofMonks a) v (abbeyMutex a)
          (taskBufferContent a) (dedicatedTaskBuffer a) (amountOfMonksBusy a).
Definition with_abbeyMutex (v : bool) (a : Abbey) : Abbey :=
  mkAbbey (threadId a) (task a) (nofMonks a) (nofTasks a) v
          (taskBufferContent a) (dedicatedTaskBuffer a) (amountOfMonksBusy a).
Definition with_dedicatedTaskBuffer (v : nat) (a : Abbey) : Abbey :=
  mkAbbey (threadId a) (task a) (nofMonks a) (nofTasks a) (abbeyMutex a)
          (taskBufferContent a) v (amountOfMonksBusy a).
Definition with_amountOfMonksBusy (v : Z) (a : Abbey) : Abbey :=
  mkAbbey (threadId a) (task a) (nofMonks a) (nofTasks a) (abbeyMutex a)
          (taskBufferContent a) (dedicatedTaskBuffer a) v.

Definition set_state (v : Z) (t : Task) : Task :=
  mkTask v (func t) (context t) (description t).

(** [set_task_state]: lock, [task[taskId].state = state], broadcast,
    unlock, return 0. *)
Definition set_task_state (taskId : nat) (st : Z) (a : Abbey) : Z * Abbey :=
  (0%Z, with_abbeyMutex false (with_task (alter (set_state st) taskId (task a)) a)).

(** The [for] loop of [find_task_and_change_state]: the first index [i]
    with [dedicatedTaskBuffer <= i < nofTasks] whose slot is in state [st]. *)
Fixpoint scan (ts : list Task) (st : Z) (i : nat) : option nat :=
  match ts with
  | [] => None
  | t :: ts' => if (state t =? st)%Z then Some i else scan ts' st (S i)
  end.

Definition first_in_state (a : Abbey) (st : Z) : option nat :=
  scan (drop (dedicatedTaskBuffer a) (take (nofTasks a) (task a))) st
       (dedicatedTaskBuffer a).

(** [increaseTaskBuffer]: [amount] is the [int] the context points to. On [NULL] the
    function returns at once and changes nothing. *)
Definition increaseTaskBuffer (amount : nat) (r : realloc_reply Task) (a : Abbey)
  : Abbey :=
  match realloc (task a) (nofTasks a + amount) r with
  | None => a
  | Some newtask =>
      with_dedicatedTaskBuffer 2
        (with_nofTasks (nofTasks a + amount) (with_task newtask a))
  end.

(** One pass through the body of [while(true)]: the function returns the
    claimed index, or suspends the caller in [pthread_cond_wait], or has
    run the countermeasure and goes round again. *)
Inductive pass : Type :=
  | Return (i : nat) (a : Abbey)
  | CondWait (a : Abbey)
  | Again (a : Abbey).

Definition search_pass (st newState : Z) (mayFail : bool)
    (r : realloc_reply Task) (a : Abbey) : pass :=
  match first_in_state a st with
  | Some i =>
      Return i (with_abbeyMutex false
                  (with_task (alter (set_state newState) i (task a)) a))
  | None =>
      if mayFail || (dedicatedTaskBuffer a =? 0)
      then CondWait (with_abbeyMutex false a)
      else Again (with_abbeyMutex false
                    (increaseTaskBuffer (taskBufferContent a) r
                       (with_dedicatedTaskBuffer 0 a)))
  end.

(** Result of a call of [find_task_and_change_state]: the index it
    returned; or the caller is queued on [abbeyCond] (the mutex released
    by the wait); or the replies of the allocator given to the model are
    used up while the loop is still running. *)
Inductive found : Type :=
  | Claimed (i : nat) (a : Abbey)
  | Waiting (a : Abbey)
  | Unfinished (a : Abbey).

(** [env] holds, pass by pass, what [realloc] would answer if that pass
    reaches the countermeasure. *)
Fixpoint search_loop (st newState : Z) (mayFail : bool)
    (env : list (realloc_reply Task)) (a : Abbey) : found :=
  match env with
  | [] => Unfinished a
  | r :: env' =>
      match search_pass st newState mayFail r a with
      | Return i a' => Claimed i a'
      | CondWait a' => Waiting a'
      | Again a' => search_loop st newState mayFail env' a'
      end
  end.

Definition find_task_and_change_state (st newState : Z) (mayFail : bool)
    (env : list (realloc_reply Task)) (a : Abbey) : found :=
  search_loop st newState mayFail env (with_abbeyMutex true a).

(** [addMonk]. The source increments [nofMonks] and then takes
    [&threadId[nofMonks]]; the model checks that address against the
    block [realloc] returned. [spawn] is the outcome of [pthread_create]. *)
Inductive monk_added : Type :=
  | AddMonkNoMemory (a : Abbey)
  | AddMonkOutOfBounds (index size : nat) (a : Abbey)
  | AddMonkCreateFailed (a : Abbey)
  | AddMonkDone (a : Abbey).

Definition addMonk (r : realloc_reply pthread_t) (spawn : option pthread_t)
    (a : Abbey) : monk_added :=
  match realloc (threadId a) (nofMonks a + 1) r with
  | None => AddMonkNoMemory a
  | Some newthreadId =>
      let a1 := with_nofMonks (nofMonks a + 1) (with_threadId newthreadId a) in
      let index := nofMonks a1 in
      if decide (index < length (threadId a1)) then
        match spawn with
        | None => AddMonkCreateFailed a1
        | Some h =>
            AddMonkDone (with_dedicatedTaskBuffer 2
                           (with_threadId (<[index := h]> (threadId a1)) a1))
        end
      else AddMonkOutOfBounds index (length (threadId a1)) a1
  end.

(** [initialize_abbey]: both arrays come from [calloc]; [spawn i] is the
    outcome of the [i]-th [pthread_create]. *)
Definition zero_task : Task := mkTask 0%Z fn_null 0 EmptyString.

Fixpoint create_monks (spawn : nat -> option pthread_t) (n i : nat)
    (ids : list pthread_t) : option (list pthread_t) :=
  match n with
  | O => Some ids
  | S n' =>
      match spawn i with
      | None => None
      | Some h => create_monks spawn n' (S i) (<[i := h]> ids)
      end
  end.

Definition initialize_abbey (monkCount taskBuffer : nat)
    (spawn : nat -> option pthread_t) : Z * Abbey :=
  let a := mkAbbey (calloc 0 monkCount) (calloc zero_task taskBuffer)
                   monkCount taskBuffer false 4 2 0%Z in
  match create_monks spawn monkCount 0 (threadId a) with
  | None => ((-1)%Z, a)
  | Some ids => (0%Z, with_threadId ids a)
  end.

(** [dispatch_described_task]. *)
Inductive dispatched : Type :=
  | Returned (ret : Z) (a : Abbey)
  | Queued (a : Abbey)
  | Pending (a : Abbey).

(** The scheduler a dispatch leaves behind. *)
Definition abbey_of (d : dispatched) : Abbey :=
  match d with
  | Returned _ a => a
  | Queued a => a
  | Pending a => a
  end.

Definition fill_task (fn : funptr) (ctx : ptr) (taskDesc : string) (t : Task)
  : Task :=
  mkTask (state t) fn ctx (strncpy taskDesc (MAX_TASK_DESCRIPTION_LEN - 1)).

Definition dispatch_described_task (fn : funptr) (ctx : ptr) (taskDesc : string)
    (env : list (realloc_reply Task)) (a : Abbey) : dispatched :=
  match find_task_and_change_state TS_READY TS_CREATING false env a with
  | Claimed taskId a1 =>
      let a2 := with_task (alter (fill_task fn ctx taskDesc) taskId (task a1)) a1 in
      let '(_, a3) := set_task_state taskId TS_OPEN a2 in
      Returned 0%Z a3
  | Waiting a1 => Queued a1
  | Unfinished a1 => Pending a1
  end.

Definition dispatch_task (fn : funptr) (ctx : ptr)
    (env : list (realloc_reply Task)) (a : Abbey) : dispatched :=
  dispatch_described_task fn ctx EmptyString env a.

(** The claim step of [monk]: [find_task_and_change_state(TS_OPEN,
    TS_BUSY, 1)]. *)
Definition monk_claim (a : Abbey) : found :=
  find_task_and_change_state TS_OPEN TS_BUSY true [ReallocNull] a.

End Abbey.

(** ** The pthread primitives the sources call *)

Module Pthread.

Definition tid := nat.

(** A default mutex: free, or held by a thread. *)
Definition pthread_mutex_t := option tid.

Definition EBUSY : Z := 16.

(** [pthread_mutex_lock]: [None] when the mutex is held, by whomever: the
    caller is suspended. *)
Definition pthread_mutex_lock (t : tid) (m : pthread_mutex_t)
  : option pthread_mutex_t :=
  match m with
  | None => Some (Some t)
  | Some _ => None
  end.

(** [pthread_mutex_trylock]: the return value and the mutex afterwards. *)
Definition pthread_mutex_trylock (t : tid) (m : pthread_mutex_t)
  : Z * pthread_mutex_t :=
  match m with
  | None => (0%Z, Some t)
  | Some _ => (EBUSY, m)
  end.

Definition pthread_mutex_unlock (m : pthread_mutex_t) : pthread_mutex_t := None.

End Pthread.

(** ** ptreaty.c: the handshakes, one call at a time *)

Module Ptreaty.
Import Pthread.

(** [struct SyncThreads]. The two condition variables carry no state of
    their own: a [pthread_cond_signal] with no thread waiting leaves
    nothing behind. [predicate] and [flags] are [uint8_t]. *)
Record SyncThreads : Type := mkSync {
  request : pthread_mutex_t;
  baton : pthread_mutex_t;
  predicate : Z;
  flags : Z
}.

Definition with_request (m : pthread_mutex_t) (st : SyncThreads) : SyncThreads :=
  mkSync m (baton st) (predicate st) (flags st).
Definition with_baton (m : pthread_mutex_t) (st : SyncThreads) : SyncThreads :=
  mkSync (request st) m (predicate st) (flags st).
Definition with_predicate (p : Z) (st : SyncThreads) : SyncThreads :=
  mkSync (request st) (baton st) p (flags st).
Definition with_flags (f : Z) (st : SyncThreads) : SyncThreads :=
  mkSync (request st) (baton st) (predicate st) f.

Definition uint8 (z : Z) : Z := (z mod 256)%Z.

(** A call returns, or suspends its thread (in [pthread_mutex_lock] or in
    [pthread_cond_wait]) with the channel in the state given. *)
Inductive call : Type :=
  | Done (st : SyncThreads)
  | Blocks (st : SyncThreads).

Definition ptreaty_init : SyncThreads := mkSync None None 0%Z 0%Z.

Definition ptreaty_init_baton (t : tid) (st : SyncThreads) : call :=
  match pthread_mutex_lock t (baton st) with
  | None => Blocks st
  | Some b => Done (with_predicate 0%Z (with_baton b st))
  end.

Definition ptreaty_return_baton (st : SyncThreads) : call :=
  Done (with_baton (pthread_mutex_unlock (baton st)) st).

(** [ptreaty_wait]: [while (st->predicate == 0) pthread_cond_wait(signal,
    baton)], then [predicate--]. With the counter at 0 the thread is
    suspended on [signal], the baton released by the wait; whatever wakes
    it, the loop tests the counter again. *)
Definition ptreaty_wait (t : tid) (st : SyncThreads) : call :=
  if (predicate st =? 0)%Z
  then Blocks (with_baton (pthread_mutex_unlock (baton st)) st)
  else Done (with_predicate (uint8 (predicate st - 1)) st).

Definition ptreaty_hoist_flag (t : tid) (st : SyncThreads) : call :=
  match pthread_mutex_lock t (request st) with
  | None => Blocks st
  | Some r => Done (with_request r st)
  end.

Definition ptreaty_lower_flag (st : SyncThreads) : call :=
  Done (with_request (pthread_mutex_unlock (request st)) st).

(** [ptreaty_flag_hoisted]: [pthread_mutex_trylock(request) == EBUSY]. A
    trylock that succeeds leaves the request mutex held by the caller. *)
Definition ptreaty_flag_hoisted (t : tid) (st : SyncThreads) : bool * SyncThreads :=
  let '(rc, r) := pthread_mutex_trylock t (request st) in
  ((rc =? EBUSY)%Z, with_request r st).

Definition ptreaty_make_m_run (t : tid) (st : SyncThreads) : call :=
  let '(hoisted, st1) := ptreaty_flag_hoisted t st in
  if hoisted then
    match pthread_mutex_lock t (baton st1) with
    | None => Blocks st1
    | Some b =>
        let st2 := with_predicate (uint8 (predicate st1 + 1)) (with_baton b st1) in
        Done (with_baton (pthread_mutex_unlock (baton st2)) st2)
    end
  else Done (with_request (pthread_mutex_unlock (request st1)) st1).

Definition ptreaty_make_m_just_run (st : SyncThreads) : call :=
  Done (with_predicate (uint8 (predicate st + 1)) st).

(** [ptreaty_make_m_stop]: [RAISE(flags, 1)], then the counter is raised
    under the baton. *)
Definition ptreaty_make_m_stop (t : tid) (st : SyncThreads) : call :=
  let st1 := with_flags (uint8 (Z.lor (flags st) (Z.shiftl 1 1))) st in
  match pthread_mutex_lock t (baton st1) with
  | None => Blocks st1
  | Some b =>
      let st2 := with_predicate (uint8 (predicate st1 + 1)) (with_baton b st1) in
      Done (with_baton (pthread_mutex_unlock (baton st2)) st2)
  end.

(** Sequencing of calls made one after the other. *)
Definition and_then (c : call) (k : SyncThreads -> call) : call :=
  match c with
  | Done st => k st
  | Blocks st => Blocks st
  end.

End Ptreaty.

(** ** log.c: [tprintf] *)

Module Log.

Definition LOG_ALERT : Z := 1.
Definition LOG_WARNING : Z := 4.
Definition LOG_DEBUG : Z := 7.
Definition LOG_VERBOSE : Z := 8.

Record line : Type := mkLine {
  verbosity : Z;
  function : string;
  msg : string
}.

(** [logconf->levelOfVerbosity] and the lines written so far. *)
Record LogConf : Type := mkLog {
  levelOfVerbosity : Z;
  printed : list line
}.

(** [tprintf]: nothing when [verbosity > levelOfVerbosity], else the line. *)
Definition tprintf (v : Z) (f m : string) (lc : LogConf) : LogConf :=
  if (v >? levelOfVerbosity lc)%Z then lc
  else mkLog (levelOfVerbosity lc) (printed lc ++ [mkLine v f m]).

End Log.

(** ** poseta.c: the registry of conditions and the ordered dispatch *)

Module Poseta.
Import Libc Abbey Log.

(** The two treaties a [PosetaTask] can point to. *)
Inductive treaty_fn : Type :=
  | ptreaty_should_be_first
  | ptreaty_should_be_later.

(** [struct PosetaTask]; [pt_st] is the address of the channel. *)
Record PosetaTask : Type := mkPosetaTask {
  pt_func : funptr;
  pt_context : ptr;
  pt_treaty : treaty_fn;
  pt_st : nat;
  pt_order : Z
}.

(** [struct Condition] without its [next] field: the list [posconf->cond]
    is kept as a Rocq list, head first. *)
Record Condition : Type := mkCondition {
  name : funptr;
  condition_index : Z;
  exec : funptr;
  cond_context : ptr
}.

(** The state poseta.c works on: the list of conditions, the heap cells
    it allocates ([PosetaTask]s and channels, by address), the log and
    the scheduler. *)
Record Poseta : Type := mkPoseta {
  cond : list Condition;
  ptasks : gmap nat PosetaTask;
  channels : gmap nat Ptreaty.SyncThreads;
  logconf : LogConf;
  abbey : Abbey
}.

Definition with_cond (v : list Condition) (p : Poseta) : Poseta :=
  mkPoseta v (ptasks p) (channels p) (logconf p) (abbey p).
Definition with_ptasks (v : gmap nat PosetaTask) (p : Poseta) : Poseta :=
  mkPoseta (cond p) v (channels p) (logconf p) (abbey p).
Definition with_channels (v : gmap nat Ptreaty.SyncThreads) (p : Poseta) : Poseta :=
  mkPoseta (cond p) (ptasks p) v (logconf p) (abbey p).
Definition with_logconf (v : LogConf) (p : Poseta) : Poseta :=
  mkPoseta (cond p) (ptasks p) (channels p) v (abbey p).
Definition with_abbey (v : Abbey) (p : Poseta) : Poseta :=
  mkPoseta (cond p) (ptasks p) (channels p) (logconf p) v.

Definition log (v : Z) (f m : string) (p : Poseta) : Poseta :=
  with_logconf (tprintf v f m (logconf p)) p.

(** [initPoseta]. *)
Definition initPoseta (lc : LogConf) (a : Abbey) : Poseta :=
  mkPoseta [] ∅ ∅ lc a.

(** The [do ... while] of [getCondition]: the first node whose [name] is
    the pointer asked for. *)
Fixpoint lookup_name (n : funptr) (l : list Condition) : option Condition :=
  match l with
  | [] => None
  | c :: l' => if decide (name c = n) then Some c else lookup_name n l'
  end.

Definition getCondition (n : funptr) (p : Poseta) : option Condition * Poseta :=
  match cond p with
  | [] => (None, log LOG_WARNING "getCondition" "No conditions at all..." p)
  | l => (lookup_name n l, p)
  end.

Definition addCondition (c : Condition) (p : Poseta) : Poseta :=
  match cond p with
  | [] => with_cond [c] (log LOG_VERBOSE "addCondition" "Add first condition" p)
  | lc =>
      let '(r, p1) := getCondition (name c) p in
      match r with
      | Some _ => log LOG_ALERT "addCondition" "Condition exists already" p1
      | None => with_cond (c :: lc) (log LOG_VERBOSE "addCondition" "Success" p1)
      end
  end.

(** [malloc]: an address not in use in the heap given. *)
Definition malloc {V : Type} (h : gmap nat V) : nat := fresh (dom h).

(** [poseta_func1_if_func0]. [junk0] and [junk1] are what the [context]
    fields of the two fresh [PosetaTask]s hold before a dispatch writes
    them. *)
Definition poseta_func1_if_func0 (func0 func1 : funptr) (junk0 junk1 : ptr)
    (p : Poseta) : Poseta :=
  let st := malloc (channels p) in
  let a0 := malloc (ptasks p) in
  let pt0 := mkPosetaTask func0 junk0 ptreaty_should_be_first st 0%Z in
  let p1 := with_channels (<[st := Ptreaty.ptreaty_init]> (channels p))
              (with_ptasks (<[a0 := pt0]> (ptasks p)) p) in
  let p2 := addCondition (mkCondition func0 0%Z fn_poseta_task a0) p1 in
  let a1 := malloc (ptasks p2) in
  let pt1 := mkPosetaTask func1 junk1 ptreaty_should_be_later st 1%Z in
  let p3 := with_ptasks (<[a1 := pt1]> (ptasks p2)) p2 in
  addCondition (mkCondition func1 1%Z fn_poseta_task a1) p3.

(** [dispatch_poseta_task]. After a failed lookup the source jumps to
    [fallback] and evaluates [lc->exec] with [lc == NULL]. *)
Inductive poseta_dispatched : Type :=
  | NullDereference (p : Poseta)
  | Dispatched (d : dispatched) (p : Poseta).

Definition dquote : string := String "034"%char EmptyString.

Definition set_pt_context (ctx : ptr) (pt : PosetaTask) : PosetaTask :=
  mkPosetaTask (pt_func pt) ctx (pt_treaty pt) (pt_st pt) (pt_order pt).

Definition dispatch_poseta_task (fn : funptr) (ctx : ptr) (taskDesc : string)
    (env : list (realloc_reply Task)) (p : Poseta) : poseta_dispatched :=
  let p0 := log LOG_VERBOSE "dispatch_poseta_task" taskDesc p in
  let '(r, p1) := getCondition fn p0 in
  match r with
  | None =>
      NullDereference
        (log LOG_WARNING "dispatch_poseta_task"
           ("Task " +:+ dquote +:+ taskDesc +:+ dquote +:+ " is not registered before!")
           p1)
  | Some lc =>
      let p2 :=
        if decide (condition_index lc = 0%Z ∨ condition_index lc = 1%Z)
        then with_ptasks (alter (set_pt_context ctx) (cond_context lc) (ptasks p1)) p1
        else p1 in
      let d := dispatch_described_task (exec lc) (cond_context lc) taskDesc env (abbey p2) in
      Dispatched d (with_abbey (abbey_of d) p2)
  end.

End Poseta.

(** ** The two wrappers of a registered pair, run side by side

    [poseta_func1_if_func0 func0 func1] registers [func0] with
    [order = 0] and the treaty [ptreaty_should_be_first], and [func1]
    with [order = 1] and [ptreaty_should_be_later], both on one channel.
    Dispatched, each runs in [poseta_task] on some monk. The model below
    runs the two bodies as two threads over the shared channel, one
    pthread call per step; a schedule says which thread moves next. *)

Module Precedence.
Import Pthread Ptreaty.

Inductive party : Type := First | Later.

Definition tid_of (p : party) : tid :=
  match p with
  | First => 0
  | Later => 1
  end.

(** What an observer sees of the real calls ([pt->func(pt->context)]). *)
Inductive event : Type :=
  | Enter (p : party)
  | Leave (p : party).

(** Where the thread of [func0] stands: [poseta_task] with [order = 0]
    calls the function, then [ptreaty_should_be_first]. *)
Inductive pc_first : Type :=
  | F_call
  | F_in_call
  | F_lock_request
  | F_broadcast
  | F_trylock_baton
  | F_unlock_request
  | F_unlock_baton
  | F_returned.

(** Where the thread of [func1] stands: [poseta_task] with [order = 1]
    calls [ptreaty_should_be_later], then the function. [L_sleeping] is
    inside [pthread_cond_wait(signal, request)], the request mutex
    released; [L_reacquire] is woken and taking the mutex back. *)
Inductive pc_later : Type :=
  | L_trylock_request
  | L_lock_baton
  | L_cond_wait
  | L_sleeping
  | L_reacquire
  | L_call
  | L_in_call
  | L_returned.

Record state : Type := mkState {
  chan : SyncThreads;
  pcF : pc_first;
  pcL : pc_later;
  trace : list event
}.

Definition init : state := mkState ptreaty_init F_call L_trylock_request [].

(** A scheduler's choice: let one of the threads take its next step, or
    let [pthread_cond_wait] return without a signal, as POSIX allows. *)
Inductive move : Type :=
  | Run (p : party)
  | SpuriousWakeup.

Definition step_first (s : state) : option state :=
  let c := chan s in
  match pcF s with
  | F_call => Some (mkState c F_in_call (pcL s) (trace s ++ [Enter First]))
  | F_in_call => Some (mkState c F_lock_request (pcL s) (trace s ++ [Leave First]))
  | F_lock_request =>
      match pthread_mutex_lock (tid_of First) (request c) with
      | None => None
      | Some r => Some (mkState (with_request r c) F_broadcast (pcL s) (trace s))
      end
  | F_broadcast =>
      Some (mkState c F_trylock_baton
              (match pcL s with L_sleeping => L_reacquire | l => l end)
              (trace s))
  | F_trylock_baton =>
      let '(rc, b) := pthread_mutex_trylock (tid_of First) (baton c) in
      if (rc =? EBUSY)%Z
      then Some (mkState c F_unlock_request (pcL s) (trace s))
      else Some (mkState (with_baton b c) F_unlock_baton (pcL s) (trace s))
  | F_unlock_request =>
      Some (mkState (with_request (pthread_mutex_unlock (request c)) c)
              F_returned (pcL s) (trace s))
  | F_unlock_baton =>
      Some (mkState (with_baton (pthread_mutex_unlock (baton c)) c)
              F_returned (pcL s) (trace s))
  | F_returned => None
  end.

Definition step_later (s : state) : option state :=
  let c := chan s in
  match pcL s with
  | L_trylock_request =>
      let '(rc, r) := pthread_mutex_trylock (tid_of Later) (request c) in
      if (rc =? EBUSY)%Z
      then Some (mkState c (pcF s) L_call (trace s))
      else Some (mkState (with_request r c) (pcF s) L_lock_baton (trace s))
  | L_lock_baton =>
      match pthread_mutex_lock (tid_of Later) (baton c) with
      | None => None
      | Some b => Some (mkState (with_baton b c) (pcF s) L_cond_wait (trace s))
      end
  | L_cond_wait =>
      Some (mkState (with_request (pthread_mutex_unlock (request c)) c)
              (pcF s) L_sleeping (trace s))
  | L_sleeping => None
  | L_reacquire =>
      match pthread_mutex_lock (tid_of Later) (request c) with
      | None => None
      | Some r => Some (mkState (with_request r c) (pcF s) L_call (trace s))
      end
  | L_call => Some (mkState c (pcF s) L_in_call (trace s ++ [Enter Later]))
  | L_in_call => Some (mkState c (pcF s) L_returned (trace s ++ [Leave Later]))
  | L_returned => None
  end.

Definition step (m : move) (s : state) : option state :=
  match m with
  | Run First => step_first s
  | Run Later => step_later s
  | SpuriousWakeup =>
      match pcL s with
      | L_sleeping => Some (mkState (chan s) (pcF s) L_reacquire (trace s))
      | _ => None
      end
  end.

(** A schedule is a list of choices; a choice whose thread cannot move
    (suspended or returned) leaves the state as it is. *)
Definition exec (sched : list move) (s : state) : state :=
  foldl (fun s m => default s (step m s)) s sched.

Definition signalled (m : move) : bool :=
  match m with
  | Run _ => true
  | SpuriousWakeup => false
  end.

(** The order asked for: the real call of [func1] is entered only after
    the real call of [func0] has been left. *)
Fixpoint ordered_from (first_done : bool) (tr : list event) : bool :=
  match tr with
  | [] => true
  | Leave First :: tr' => ordered_from true tr'
  | Enter Later :: tr' => first_done && ordered_from first_done tr'
  | _ :: tr' => ordered_from first_done tr'
  end.

Definition ordered (tr : list event) : bool := ordered_from false tr.

Definition has_left (tr : list event) : bool :=
  existsb (fun e => match e with Leave First => true | _ => false end) tr.

Definition past_call (f : pc_first) : bool :=
  match f with
  | F_call | F_in_call => false
  | _ => true
  end.

Definition past_lock (f : pc_first) : bool :=
  match f with
  | F_call | F_in_call | F_lock_request => false
  | _ => true
  end.

Definition past_wait (l : pc_later) : bool :=
  match l with
  | L_reacquire | L_call | L_in_call | L_returned => true
  | _ => false
  end.

(** The invariant of the runs without spurious wake-ups. *)
Definition inv (s : state) : bool :=
  ordered (trace s)
  && implb (past_call (pcF s)) (has_left (trace s))
  && implb (past_wait (pcL s)) (past_call (pcF s))
  && match request (chan s) with
     | None => true
     | Some 0 => past_lock (pcF s)
     | Some 1 => match pcL s with L_trylock_request => false | _ => true end
     | Some _ => false
     end.

(** Two schedules without spurious wake-ups: [func1]'s wrapper arrives
    first and sleeps until the broadcast; [func0]'s wrapper runs to its
    end before the other starts. *)
Definition later_first : list move :=
  [Run Later; Run Later; Run Later;
   Run First; Run First; Run First; Run First; Run First; Run First;
   Run Later; Run Later; Run Later].

Definition first_first : list move :=
  [Run First; Run First; Run First; Run First; Run First; Run First;
   Run Later; Run Later; Run Later].

(** [func1]'s wrapper arrives first and its wait returns unsignalled. *)
Definition woken_early : list move :=
  [Run Later; Run Later; Run Later; SpuriousWakeup;
   Run Later; Run Later; Run Later].

End Precedence.

(** ** tcpip.c: the mailbox *)

Module Tcpip.
Import Pthread.

(** [struct TcpipMessage]; [next] is [None] for [NULL]. *)
Record TcpipMessage : Type := mkMessage {
  size : Z;
  payload : list Z;
  next : option nat
}.

Record TcpipMailbox : Type := mkMailbox {
  first : option nat;
  last : option nat;
  lock : pthread_mutex_t
}.

Definition set_next (n : option nat) (m : TcpipMessage) : TcpipMessage :=
  mkMessage (size m) (payload m) n.

(** A call returns a value, or suspends the caller on the mailbox lock,
    or follows a pointer to no message. *)
Inductive result (A : Type) : Type :=
  | Ok (a : A)
  | Suspended
  | Fault.
Arguments Ok {A} a.
Arguments Suspended {A}.
Arguments Fault {A}.

(** [push]. *)
Definition push (t : tid) (h : gmap nat TcpipMessage) (M : TcpipMailbox) (m : nat)
  : result (gmap nat TcpipMessage * TcpipMailbox) :=
  match pthread_mutex_lock t (lock M) with
  | None => Suspended
  | Some _ =>
      let linked :=
        match first M with
        | None => Some (h, Some m)
        | Some f =>
            match last M with
            | None => None
            | Some l =>
                match h !! l with
                | None => None
                | Some ml => Some (<[l := set_next (Some m) ml]> h, Some f)
                end
            end
        end in
      match linked with
      | None => Fault
      | Some (h1, f1) =>
          match h1 !! m with
          | None => Fault
          | Some mm =>
              Ok (<[m := set_next None mm]> h1,
                  mkMailbox f1 (Some m) (pthread_mutex_unlock (lock M)))
          end
      end
  end.

(** [pop]: the message removed ([None] for [NULL]), the heap and the
    mailbox afterwards. *)
Definition pop (t : tid) (h : gmap nat TcpipMessage) (M : TcpipMailbox)
  : result (option nat * gmap nat TcpipMessage * TcpipMailbox) :=
  match pthread_mutex_lock t (lock M) with
  | None => Suspended
  | Some _ =>
      match first M with
      | None => Ok (None, h, mkMailbox None (last M) (pthread_mutex_unlock (lock M)))
      | Some m =>
          match h !! m with
          | None => Fault
          | Some mm =>
              Ok (Some m, <[m := set_next None mm]> h,
                  mkMailbox (next mm) (last M) (pthread_mutex_unlock (lock M)))
          end
      end
  end.

(** The messages of a mailbox, oldest first: the chain of [next] pointers
    from [first] to [NULL]. *)
Fixpoint chain (h : gmap nat TcpipMessage) (p : option nat) (l : list nat) : Prop :=
  match l with
  | [] => p = None
  | a :: l' => p = Some a ∧ ∃ m, h !! a = Some m ∧ chain h (next m) l'
  end.

(** [holds h M l]: the mailbox is not locked, its chain is [l], no message
    is linked twice and, unless the mailbox is empty, [last] points to the
    newest message. *)
Definition holds (h : gmap nat TcpipMessage) (M : TcpipMailbox) (l : list nat) : Prop :=
  lock M = None ∧ chain h (first M) l ∧ NoDup l ∧ (l ≠ [] → last M = list.last l).

End Tcpip.

(** ** Concrete runs used below *)

Module Scenarios.
Import Libc Abbey.

Definition spawn_ok (i : nat) : option pthread_t := Some (100 + i).

(** [initialize_abbey(1, 3)] and [initialize_abbey(1, 4)]. *)
Definition booted : Abbey := (initialize_abbey 1 3 spawn_ok).2.
Definition booted4 : Abbey := (initialize_abbey 1 4 spawn_ok).2.

(** A block whose extension happens to be zeroed, and one whose
    extension holds the remains of an earlier use of the memory. *)
Definition zeroed : realloc_reply Task := ReallocOk (fun _ => zero_task).
Definition stale_task : Task := mkTask TS_OPEN (fn_app 9) 0 "stale".
Definition stale : realloc_reply Task := ReallocOk (fun _ => stale_task).

(** Three dispatches on [booted] while no monk finishes anything; during
    the second one [realloc] fails. *)
Definition one_out : Abbey :=
  abbey_of (dispatch_described_task (fn_app 1) 0 "one" [zeroed] booted).
Definition two_out : Abbey :=
  abbey_of (dispatch_described_task (fn_app 2) 0 "two" [ReallocNull; ReallocNull] one_out).
Definition three_out : Abbey :=
  abbey_of (dispatch_described_task (fn_app 3) 0 "three" [zeroed] two_out).

Definition no_slot_ready (a : Abbey) : bool :=
  forallb (fun t => negb (state t =? TS_READY)%Z) (task a).

End Scenarios.

(** ** abbey.c: the rest of the monk *)

Module Monk.
Import Libc Abbey.

(** The head of the monk's loop: the claim and [amountOfMonksBusy++]. *)
Definition monk_begin (a : Abbey) : found :=
  match monk_claim a with
  | Claimed taskId a1 =>
      Claimed taskId (with_amountOfMonksBusy (amountOfMonksBusy a1 + 1) a1)
  | other => other
  end.

(** The tail of the loop, after the task function has returned:
    [set_task_state(taskId, TS_READY)], then under the mutex the test
    [amountOfMonksBusy >= nofMonks] with [dedicatedTaskBuffer = 0] and
    [addMonk(NULL)], then [amountOfMonksBusy--]. A monk that has written
    outside the handle array is not followed any further. *)
Inductive monk_finished : Type :=
  | MonkIdle (a : Abbey)
  | MonkOutOfBounds (index size : nat) (a : Abbey).

Definition monk_idle (a : Abbey) : monk_finished :=
  MonkIdle (with_amountOfMonksBusy (amountOfMonksBusy a - 1)
              (with_abbeyMutex false a)).

Definition monk_finish (taskId : nat) (r : realloc_reply pthread_t)
    (spawn : option pthread_t) (a : Abbey) : monk_finished :=
  let '(_, a1) := set_task_state taskId TS_READY a in
  let a2 := with_abbeyMutex true a1 in
  if (Z.of_nat (nofMonks a2) <=? amountOfMonksBusy a2)%Z then
    match addMonk r spawn (with_dedicatedTaskBuffer 0 a2) with
    | AddMonkNoMemory a3 => monk_idle a3
    | AddMonkOutOfBounds i n a3 => MonkOutOfBounds i n a3
    | AddMonkCreateFailed a3 => monk_idle a3
    | AddMonkDone a3 => monk_idle a3
    end
  else monk_idle a2.

(** What the scheduler relies on when it indexes [task]: the count it
    keeps is the length of the array. *)
Definition sized (a : Abbey) : Prop := length (task a) = nofTasks a.

End Monk.

(** ** bits.h: the bit macros, applied to [uint8_t] variables *)

Module Bits.
Import Ptreaty.

(** [RAISE], [CLEAR] and [TOGGLE] assign to their first argument; the
    variable keeps the low eight bits of the [int] the right-hand side
    evaluates to. [RAISED] and [CLEARED] are [int] expressions. [bit] is
    from 0 to 30, where [1 << bit] is defined and not negative. *)
Definition RAISE (bitseq bit : Z) : Z := uint8 (Z.lor bitseq (Z.shiftl 1 bit)).
Definition CLEAR (bitseq bit : Z) : Z :=
  uint8 (Z.land bitseq (Z.lnot (Z.shiftl 1 bit))).
Definition RAISED (bitseq bit : Z) : Z := Z.land bitseq (Z.shiftl 1 bit).
Definition CLEARED (bitseq bit : Z) : Z :=
  if (Z.land bitseq (Z.shiftl 1 bit) =? 0)%Z then 1%Z else 0%Z.
Definition TOGGLE (bitseq bit : Z) : Z := uint8 (Z.lxor bitseq (Z.shiftl 1 bit)).

End Bits.

(** ** ptreaty.c: the other handshakes *)

Module Handshake.
Import Pthread Ptreaty Bits.

(** [pthread_cond_wait] returning inside [ptreaty_wait]: the wait takes
    the baton back, then the loop tests the counter again. *)
Definition ptreaty_wait_woken (t : tid) (st : SyncThreads) : call :=
  match pthread_mutex_lock t (baton st) with
  | None => Blocks st
  | Some b => ptreaty_wait t (with_baton b st)
  end.

(** [ptreaty_make_m_run_once]. The baton is a default mutex, so
    [pthread_mutex_lock] never returns [EDEADLK] and [unlock] is 1. After
    the increment the counter is tested and, unless it is 0, the caller
    sleeps on [ack], the baton released by the wait. *)
Definition ptreaty_make_m_run_once (t : tid) (st : SyncThreads) : call :=
  match pthread_mutex_lock t (baton st) with
  | None => Blocks st
  | Some b =>
      let st1 := with_predicate (uint8 (predicate st + 1)) (with_baton b st) in
      if (predicate st1 =? 0)%Z
      then Done (with_baton (pthread_mutex_unlock (baton st1)) st1)
      else Blocks (with_baton (pthread_mutex_unlock (baton st1)) st1)
  end.

(** The rest of [ptreaty_make_m_run_once] when the wait on [ack] returns. *)
Definition ptreaty_make_m_run_once_woken (t : tid) (st : SyncThreads) : call :=
  match pthread_mutex_lock t (baton st) with
  | None => Blocks st
  | Some b => Done (with_baton (pthread_mutex_unlock b) st)
  end.

(** [ptreaty_has_run]: a [pthread_cond_signal] on [ack]. *)
Definition ptreaty_has_run (st : SyncThreads) : call := Done st.

(** [ptreaty_make_m_run_nx]. When the flag is not hoisted the trylock
    inside [ptreaty_flag_hoisted] has taken the request mutex, and this
    function does not give it back. *)
Definition ptreaty_make_m_run_nx (t : tid) (st : SyncThreads) : call :=
  let '(hoisted, st1) := ptreaty_flag_hoisted t st in
  if hoisted then ptreaty_make_m_run_once t st1
  else ptreaty_make_m_just_run st1.

(** [ptreaty_wait_to_continue]: one [pthread_cond_wait] on [ack]. *)
Definition ptreaty_wait_to_continue (t : tid) (st : SyncThreads) : call :=
  Blocks (with_baton (pthread_mutex_unlock (baton st)) st).

Definition ptreaty_make_m_continue (t : tid) (st : SyncThreads) : call :=
  let '(hoisted, st1) := ptreaty_flag_hoisted t st in
  if hoisted then
    match pthread_mutex_lock t (baton st1) with
    | None => Blocks st1
    | Some b => Done (with_baton (pthread_mutex_unlock b) st1)
    end
  else Done (with_request (pthread_mutex_unlock (request st1)) st1).

(** [ptreaty_stop]: the value returned and the channel afterwards. *)
Definition ptreaty_stop (st : SyncThreads) : Z * SyncThreads :=
  if (RAISED (flags st) 1 =? 0)%Z then (0%Z, st)
  else (1%Z, with_baton (pthread_mutex_unlock (baton st)) st).

(** [n] calls of [ptreaty_make_m_just_run] in a row. *)
Fixpoint just_run_times (n : nat) (st : SyncThreads) : call :=
  match n with
  | O => Done st
  | S n' => and_then (ptreaty_make_m_just_run st) (just_run_times n')
  end.

End Handshake.

(** ** ptreaty.c: the names of the threads *)

Module ThreadNames.
Import Abbey.

(** A node of the list [threadnames]: the pointer to the handle that was
    passed in, and the name copied into the 64-byte field. *)
Record ThreadName : Type := mkThreadName {
  thread : nat;
  tn_name : string
}.

(** [ptreaty_add_thread]: a new node at the end of the list. [None]: the
    [sprintf] writes past the 64 bytes of [name]. *)
Definition ptreaty_add_thread (thr : nat) (name : string) (l : list ThreadName)
  : option (list ThreadName) :=
  if decide (String.length name < 64) then Some (l ++ [mkThreadName thr name])
  else None.

(** The loop of [ptreaty_get_thread_name]; [cells] is the memory the
    stored pointers point into, [h] the handle looked for. [None]: a
    stored pointer no longer points to a handle. *)
Fixpoint lookup_thread (cells : gmap nat pthread_t) (h : pthread_t)
    (l : list ThreadName) : option string :=
  match l with
  | [] => Some "Unknown thread"%string
  | n :: l' =>
      match cells !! thread n with
      | None => None
      | Some h' => if decide (h' = h) then Some (tn_name n)
                   else lookup_thread cells h l'
      end
  end.

Definition ptreaty_get_thread_name (cells : gmap nat pthread_t) (thr : nat)
    (l : list ThreadName) : option string :=
  match l with
  | [] => Some "Unknown thread"%string
  | _ =>
      match cells !! thr with
      | None => None
      | Some h => lookup_thread cells h l
      end
  end.

End ThreadNames.

(** ** poseta.c: the task bodies and the tuple dispatch *)

Module PosetaTasks.
Import Libc Abbey Poseta.

(** [struct TupleTask]. *)
Record TupleTask : Type := mkTupleTask {
  func0 : funptr;
  context0 : ptr;
  func1 : funptr;
  context1 : ptr
}.

(** What a task body does, as the calls it makes, in order: a function
    with its argument, or a treaty on a channel. *)
Inductive action : Type :=
  | CallFn (f : funptr) (ctx : ptr)
  | CallTreaty (t : treaty_fn) (st : nat).

(** [tuple_task]: the context is cast to a [TupleTask]; [None] when it
    points to none. *)
Definition tuple_task (tuples : gmap nat TupleTask) (context : ptr)
  : option (list action) :=
  match tuples !! context with
  | None => None
  | Some tu => Some [CallFn (func0 tu) (context0 tu); CallFn (func1 tu) (context1 tu)]
  end.

(** [poseta_task]: with [order] 0 the function, then the treaty; else the
    treaty, then the function. *)
Definition poseta_task (ptasks : gmap nat PosetaTask) (context : ptr)
  : option (list action) :=
  match ptasks !! context with
  | None => None
  | Some pt =>
      if (pt_order pt =? 0)%Z
      then Some [CallFn (pt_func pt) (pt_context pt); CallTreaty (pt_treaty pt) (pt_st pt)]
      else Some [CallTreaty (pt_treaty pt) (pt_st pt); CallFn (pt_func pt) (pt_context pt)]
  end.

(** The call [task[taskId].func(task[taskId].context)] of the monk, for a
    slot holding [t]. A function of the application is one call; a null
    function pointer is no call the model follows. *)
Definition run_task (ptasks : gmap nat PosetaTask) (tuples : gmap nat TupleTask)
    (t : Task) : option (list action) :=
  match func t with
  | fn_null => None
  | fn_poseta_task => poseta_task ptasks (context t)
  | fn_tuple_task => tuple_task tuples (context t)
  | fn_app id => Some [CallFn (fn_app id) (context t)]
  end.

(** [dispatch_tuple_task]: a fresh [TupleTask] is filled and its address
    dispatched as the context of [tuple_task]. *)
Definition dispatch_tuple_task (f0 : funptr) (c0 : ptr) (f1 : funptr) (c1 : ptr)
    (taskDesc : string) (env : list (realloc_reply Task))
    (tuples : gmap nat TupleTask) (a : Abbey)
  : gmap nat TupleTask * dispatched :=
  let tu := malloc tuples in
  (<[tu := mkTupleTask f0 c0 f1 c1]> tuples,
   dispatch_described_task fn_tuple_task tu taskDesc env a).

End PosetaTasks.

(** ** tcpip.c: the other mailbox operations *)

Module Mailbox.
Import Pthread Log Tcpip.

(** [advance]: the head is unlinked and the new head returned. *)
Definition advance (t : tid) (h : gmap nat TcpipMessage) (M : TcpipMailbox)
  : result (option nat * gmap nat TcpipMessage * TcpipMailbox) :=
  match pthread_mutex_lock t (lock M) with
  | None => Suspended
  | Some _ =>
      match first M with
      | None => Ok (None, h, mkMailbox None (last M) (pthread_mutex_unlock (lock M)))
      | Some f =>
          match h !! f with
          | None => Fault
          | Some mf =>
              Ok (next mf, <[f := set_next None mf]> h,
                  mkMailbox (next mf) (last M) (pthread_mutex_unlock (lock M)))
          end
      end
  end.

(** The [while] loop of [count]; every message visited uses up one unit
    of [fuel], and [None] says the fuel ran out with the loop still
    going. *)
Fixpoint count_from (fuel : nat) (h : gmap nat TcpipMessage) (m : option nat)
    (res : Z) : option (result Z) :=
  match m with
  | None => Some (Ok res)
  | Some a =>
      match fuel with
      | O => None
      | S fuel' =>
          match h !! a with
          | None => Some Fault
          | Some ma => count_from fuel' h (next ma) (res + 1)
          end
      end
  end.

Definition count (t : tid) (fuel : nat) (h : gmap nat TcpipMessage) (M : TcpipMailbox)
  : option (result Z) :=
  match pthread_mutex_lock t (lock M) with
  | None => Some Suspended
  | Some _ => count_from fuel h (first M) 0
  end.

(** [move]. The two mailboxes are given by address in [boxes], so that
    source and destination can be one object: the function then asks for
    a lock it already holds. *)
Definition move (t : tid) (h : gmap nat TcpipMessage)
    (boxes : gmap nat TcpipMailbox) (src dest : nat) (lc : LogConf)
  : result (gmap nat TcpipMessage * gmap nat TcpipMailbox * LogConf) :=
  match boxes !! src with
  | None => Fault
  | Some Ms0 =>
      match pthread_mutex_lock t (lock Ms0) with
      | None => Suspended
      | Some ls =>
          let boxes1 := <[src := mkMailbox (first Ms0) (last Ms0) ls]> boxes in
          match boxes1 !! dest with
          | None => Fault
          | Some Md0 =>
              match pthread_mutex_lock t (lock Md0) with
              | None => Suspended
              | Some _ =>
                  match first Ms0 with
                  | None =>
                      Ok (h, boxes,
                          tprintf LOG_WARNING "move" "No message in source mailbox" lc)
                  | Some m =>
                      let linked :=
                        match first Md0 with
                        | None => Some (h, Some m)
                        | Some f =>
                            match last Md0 with
                            | None => None
                            | Some l =>
                                match h !! l with
                                | None => None
                                | Some ml => Some (<[l := set_next (Some m) ml]> h, Some f)
                                end
                            end
                        end in
                      match linked with
                      | None => Fault
                      | Some (h1, fd) =>
                          match h1 !! m with
                          | None => Fault
                          | Some mm =>
                              Ok (<[m := set_next None mm]> h1,
                                  <[dest := mkMailbox fd (Some m) (pthread_mutex_unlock (lock Md0))]>
                                    (<[src := mkMailbox (next mm) (last Ms0)
                                                (pthread_mutex_unlock (lock Ms0))]> boxes),
                                  lc)
                          end
                      end
                  end
              end
          end
      end
  end.

End Mailbox.

(** ** tcpipbank.c: the list of sockets *)

Module Tcpipbank.
Import Abbey.

(** A node of the list [sockets]: [id] and [item]. The list is kept in
    the order of its [next] pointers. *)
Record TcpipSocket_LI : Type := mkLI {
  id : Z;
  item : ptr
}.

Definition initSockets : list TcpipSocket_LI := [].

Definition tcpipbank_add (sock : ptr) (i : Z) (sockets : list TcpipSocket_LI)
  : list TcpipSocket_LI :=
  sockets ++ [mkLI i sock].

(** [tcpipbank_get]: the item of the first node with the id, [None] for
    [NULL]. *)
Fixpoint tcpipbank_get (i : Z) (sockets : list TcpipSocket_LI) : option ptr :=
  match sockets with
  | [] => None
  | n :: rest => if (id n =? i)%Z then Some (item n) else tcpipbank_get i rest
  end.

(** [free] on the set of blocks in use: a null pointer is ignored, a
    pointer to a block not in use is an error ([None]). *)
Definition free (q : ptr) (alloc : gset nat) : option (gset nat) :=
  if decide (q = 0) then Some alloc
  else if decide (q ∈ alloc) then Some (alloc ∖ {[ q ]})
  else None.

(** [tcpipbank_del]: the item of every node with the id is freed; the
    list itself is not touched. *)
Fixpoint tcpipbank_del (i : Z) (sockets : list TcpipSocket_LI) (alloc : gset nat)
  : option (gset nat) :=
  match sockets with
  | [] => Some alloc
  | n :: rest =>
      if (id n =? i)%Z then
        match free (item n) alloc with
        | None => None
        | Some alloc' => tcpipbank_del i rest alloc'
        end
      else tcpipbank_del i rest alloc
  end.

End Tcpipbank.

(** ** tcpip.c: the socket tasks

    Of [struct TcpipSocket] the fields the tasks below read or write are
    kept; the two mailboxes are part of the record. The address fields
    and the diagnostics are left out, and time does not pass: [sleep] is
    no step. What the socket calls hand back ([recv], [send], [errno])
    are arguments. *)

Module Socket.
Import Libc Abbey Pthread Ptreaty Bits Tcpip.

Definition TCP_CLIENT : Z := 4.
Definition TCP_SERVER : Z := 2.
Definition MAX_PACKET_SIZE : nat := 2048.

(** The task functions of tcpip.c as the scheduler sees them: functions
    like any other, numbered from 1000. *)
Definition fn_tcpip_start : funptr := fn_app 1000.
Definition fn_tcpip_retrieve_packets : funptr := fn_app 1003.
Definition fn_tcpip_send_packets : funptr := fn_app 1004.

Record TcpipSocket : Type := mkSocket {
  port_nr : Z;
  status : Z;
  cli_sockfd : Z;
  serv_sockfd : Z;
  write_sockfd : Z;
  read_sockfd : Z;
  inbox : TcpipMailbox;
  outbox : TcpipMailbox;
  callbackIn : funptr;
  callbackOut : funptr;
  callbackConnect : funptr;
  sync : SyncThreads;
  trials : Z
}.

Definition with_inbox (M : TcpipMailbox) (s : TcpipSocket) : TcpipSocket :=
  mkSocket (port_nr s) (status s) (cli_sockfd s) (serv_sockfd s) (write_sockfd s)
           (read_sockfd s) M (outbox s) (callbackIn s) (callbackOut s)
           (callbackConnect s) (sync s) (trials s).
Definition with_outbox (M : TcpipMailbox) (s : TcpipSocket) : TcpipSocket :=
  mkSocket (port_nr s) (status s) (cli_sockfd s) (serv_sockfd s) (write_sockfd s)
           (read_sockfd s) (inbox s) M (callbackIn s) (callbackOut s)
           (callbackConnect s) (sync s) (trials s).
Definition with_trials (n : Z) (s : TcpipSocket) : TcpipSocket :=
  mkSocket (port_nr s) (status s) (cli_sockfd s) (serv_sockfd s) (write_sockfd s)
           (read_sockfd s) (inbox s) (outbox s) (callbackIn s) (callbackOut s)
           (callbackConnect s) (sync s) n.

(** [tcpip_get]: [raw] is the block [malloc] returned; the four
    descriptors keep what it held. *)
Definition tcpip_get (server : Z) (raw : TcpipSocket) : TcpipSocket :=
  mkSocket 3333
           (if (server =? 0)%Z then RAISE 0 TCP_CLIENT else RAISE 0 TCP_SERVER)
           (cli_sockfd raw) (serv_sockfd raw) (write_sockfd raw) (read_sockfd raw)
           (mkMailbox None None None) (mkMailbox None None None)
           fn_null fn_null fn_null ptreaty_init 3.


(** What the tasks work on: the messages, the socket, the scheduler, and
    what has been handed to [send] and to [close]. *)
Record World : Type := mkWorld {
  heap : gmap nat TcpipMessage;
  sock : TcpipSocket;
  abbey : Abbey;
  offered : list (Z * list Z);
  closed : list Z
}.

Definition with_heap (h : gmap nat TcpipMessage) (w : World) : World :=
  mkWorld h (sock w) (abbey w) (offered w) (closed w).
Definition with_sock (s : TcpipSocket) (w : World) : World :=
  mkWorld (heap w) s (abbey w) (offered w) (closed w).
Definition with_abbey (a : Abbey) (w : World) : World :=
  mkWorld (heap w) (sock w) a (offered w) (closed w).
Definition with_offered (o : list (Z * list Z)) (w : World) : World :=
  mkWorld (heap w) (sock w) (abbey w) o (closed w).
Definition with_closed (c : list Z) (w : World) : World :=
  mkWorld (heap w) (sock w) (abbey w) (offered w) c.

(** How a task ends: it returns; or it is held inside a dispatch that
    has not returned, or on a mailbox lock; or it reads through a null
    pointer, or through a pointer to no message. *)
Inductive ended : Type :=
  | Finished (w : World)
  | InDispatch (w : World)
  | OnLock (w : World)
  | NullDereference (w : World)
  | BadPointer (w : World).

Definition dispatching (fn : funptr) (self : ptr) (taskDesc : string)
    (env : list (realloc_reply Task)) (w : World) (k : World -> ended) : ended :=
  match dispatch_described_task fn self taskDesc env (abbey w) with
  | Returned _ a => k (with_abbey a w)
  | Queued a => InDispatch (with_abbey a w)
  | Pending a => InDispatch (with_abbey a w)
  end.

(** [freemsg]. *)
Definition freemsg (m : option nat) (h : gmap nat TcpipMessage)
  : gmap nat TcpipMessage :=
  match m with
  | None => h
  | Some a => delete a h
  end.

(** [tcpip_send_packets]; [retval] is what [send] returns. *)
Definition tcpip_send_packets (t : tid) (self : ptr) (retval : Z)
    (env : list (realloc_reply Task)) (w : World) : ended :=
  match pop t (heap w) (outbox (sock w)) with
  | Suspended => OnLock w
  | Fault => BadPointer w
  | Ok (None, h, M) => NullDereference (with_sock (with_outbox M (sock w)) (with_heap h w))
  | Ok (Some m, h, M) =>
      let w1 := with_sock (with_outbox M (sock w)) (with_heap h w) in
      match h !! m with
      | None => BadPointer w1
      | Some mm =>
          if decide (Z.to_nat (size mm) <= length (payload mm)) then
            let w2 :=
              with_offered
                (offered w1 ++ [(write_sockfd (sock w1),
                                 take (Z.to_nat (size mm)) (payload mm))]) w1 in
            if (retval =? -1)%Z then Finished w2
            else if (retval =? 0)%Z then Finished w2
            else
              let w3 := with_heap (freemsg (Some m) (heap w2)) w2 in
              if decide (callbackOut (sock w3) = fn_null) then Finished w3
              else dispatching (callbackOut (sock w3)) self "tcp/ip callback" env w3 Finished
          else BadPointer w1
      end
  end.

(** What [recv] hands back for a one-byte read and for the read of the
    body. *)
Inductive recv1 : Type :=
  | Recv1Error (errno : Z)
  | Recv1Closed
  | Recv1Byte (b : Z).

#[global] Instance recv1_eq_dec : EqDecision recv1.
Proof. solve_decision. Defined.

Inductive recvn : Type :=
  | RecvnError (errno : Z)
  | RecvnBytes (bs : list Z).

(** The copy loop [payload[i+2] = result[i]]. *)
Fixpoint copy_result (i : nat) (bs : list Z) (pl : list Z) : list Z :=
  match bs with
  | [] => pl
  | b :: bs' => copy_result (S i) bs' (<[i + 2 := b]> pl)
  end.

Definition close_both (w : World) : World :=
  with_closed (closed w ++ [cli_sockfd (sock w); serv_sockfd (sock w)]) w.

(** [tcpip_retrieve_packets]. [r1], [r2] and [r3] are the three [recv]
    calls, [junk] what the [next] field of the fresh message holds,
    [env1] the replies for the dispatch of the callback and [env2] those
    for the last dispatch. *)
Definition tcpip_retrieve_packets (t : tid) (self : ptr) (junk : option nat)
    (r1 r2 : recv1) (r3 : recvn) (env1 env2 : list (realloc_reply Task))
    (w : World) : ended :=
  let loop (w : World) :=
    dispatching fn_tcpip_retrieve_packets self "retrieve packets" env2 w Finished in
  match r1 with
  | Recv1Error errno =>
      if (errno =? 107)%Z then
        let w1 := with_sock (with_trials (trials (sock w) - 1) (sock w)) w in
        if (trials (sock w1) =? 0)%Z then Finished w1
        else dispatching fn_tcpip_start self "restart tcp/ip" env2 (close_both w1) Finished
      else Finished w
  | Recv1Closed =>
      dispatching fn_tcpip_start self "restart tcp/ip" env2 (close_both w) Finished
  | Recv1Byte command =>
      match r2 with
      | Recv1Error _ => loop w
      | Recv1Closed => loop w
      | Recv1Byte sz =>
          if (sz =? 0)%Z then loop w
          else
            let got :=
              match r3 with
              | RecvnError _ => []
              | RecvnBytes bs => take (Z.to_nat sz) bs
              end in
            let m := Poseta.malloc (heap w) in
            let msg :=
              mkMessage (uint8 (sz + 2))
                (copy_result 0 got
                   (<[1 := sz]> (<[0 := command]> (calloc 0%Z (MAX_PACKET_SIZE - 1)))))
                junk in
            match push t (<[m := msg]> (heap w)) (inbox (sock w)) m with
            | Suspended => OnLock w
            | Fault => BadPointer w
            | Ok (h', M') =>
                let w1 := with_sock (with_inbox M' (sock w)) (with_heap h' w) in
                if decide (callbackIn (sock w1) = fn_null) then loop w1
                else dispatching (callbackIn (sock w1)) self "" env1 w1 loop
            end
      end
  end.

(** The state a task has reached when it ends, however it ends. *)
Definition world_of (e : ended) : World :=
  match e with
  | Finished w => w
  | InDispatch w => w
  | OnLock w => w
  | NullDereference w => w
  | BadPointer w => w
  end.

End Socket.

(** * Properties *)

(** ** The scheduler *)

Module AbbeyFacts.
Import Libc Abbey Scenarios.

Lemma realloc_length {A : Type} (old : list A) (n : nat) (fresh : nat -> A) (new : list A) :
  realloc old n (ReallocOk fresh) = Some new -> length new = n.
Proof.
  intros H. injection H as <-.
  rewrite length_app, length_take, length_map, length_seq. lia.
Qed.

Lemma realloc_keeps {A : Type} (old : list A) (n : nat) (fresh : nat -> A) (i : nat) :
  length old <= n -> i < length old ->
  (take n old ++ map fresh (seq (length old) (n - length old))) !! i = old !! i.
Proof.
  intros Hn Hi. rewrite lookup_app_l by (rewrite length_take; lia).
  apply lookup_take_lt. lia.
Qed.

Lemma realloc_fresh {A : Type} (old : list A) (n : nat) (fresh : nat -> A) (i : nat) :
  length old <= i -> i < n ->
  (take n old ++ map fresh (seq (length old) (n - length old))) !! i = Some (fresh i).
Proof.
  intros Hlo Hhi.
  rewrite lookup_app_r by (rewrite length_take; lia).
  rewrite length_take, Nat.min_r by lia.
  rewrite list_lookup_fmap, lookup_seq_lt by lia.
  simpl. f_equal. f_equal. lia.
Qed.

Lemma scan_bounds (ts : list Task) (st : Z) (i j : nat) :
  scan ts st i = Some j -> i <= j < i + length ts.
Proof.
  revert i. induction ts as [|t ts IH]; intros i; simpl; [discriminate|].
  destruct (state t =? st)%Z.
  - intros [= <-]. lia.
  - intros H. apply IH in H. lia.
Qed.

Lemma scan_state (ts : list Task) (st : Z) (i j : nat) :
  scan ts st i = Some j -> exists t, ts !! (j - i) = Some t /\ state t = st.
Proof.
  revert i. induction ts as [|t ts IH]; intros i; simpl; [discriminate|].
  destruct (state t =? st)%Z eqn:E.
  - intros [= <-]. exists t. rewrite Nat.sub_diag. split; [reflexivity|lia].
  - intros H. pose proof (scan_bounds _ _ _ _ H) as Hb.
    apply IH in H as (t' & Ht' & Hs). exists t'. split; [|exact Hs].
    replace (j - i) with (S (j - S i)) by lia. exact Ht'.
Qed.

(** The index the search returns lies at or after [dedicatedTaskBuffer],
    below [nofTasks], and its slot was in the state looked for. *)
Lemma first_in_state_spec (a : Abbey) (st : Z) (i : nat) :
  first_in_state a st = Some i ->
  dedicatedTaskBuffer a <= i < nofTasks a /\
  exists t, task a !! i = Some t /\ state t = st.
Proof.
  unfold first_in_state. intros H.
  pose proof (scan_bounds _ _ _ _ H) as Hb.
  apply scan_state in H as (t & Ht & Hs).
  rewrite lookup_drop in Ht.
  replace (dedicatedTaskBuffer a + (i - dedicatedTaskBuffer a)) with i in Ht by lia.
  apply lookup_take_Some in Ht as [Ht Hi].
  split; [lia|]. eauto.
Qed.

(** A slot returned by the search holds the new state afterwards. *)
Lemma search_pass_return (st newState : Z) (mayFail : bool)
    (r : realloc_reply Task) (a a' : Abbey) (i : nat) :
  search_pass st newState mayFail r a = Return i a' ->
  first_in_state a st = Some i /\
  exists t, task a' !! i = Some t /\ state t = newState.
Proof.
  unfold search_pass. destruct (first_in_state a st) as [j|] eqn:E.
  - intros [= <- <-]. split; [reflexivity|].
    apply first_in_state_spec in E as (_ & t & Ht & _).
    exists (set_state newState t). simpl.
    rewrite list_lookup_alter_eq, Ht. split; reflexivity.
  - destruct (mayFail || (dedicatedTaskBuffer a =? 0)); discriminate.
Qed.

Lemma search_loop_claimed (st newState : Z) (mayFail : bool)
    (env : list (realloc_reply Task)) (a a' : Abbey) (i : nat) :
  search_loop st newState mayFail env a = Claimed i a' ->
  exists t, task a' !! i = Some t /\ state t = newState.
Proof.
  revert a. induction env as [|r env IH]; intros a; simpl; [discriminate|].
  destruct (search_pass st newState mayFail r a) as [j b|b|b] eqn:E.
  - intros [= <- <-]. apply search_pass_return in E as [_ H]. exact H.
  - discriminate.
  - apply IH.
Qed.

(** While every growth succeeds, the search started with two reserved
    slots never returns one of them. *)
Lemma claimed_slot_not_reserved (st newState : Z) (mayFail : bool)
    (env : list (realloc_reply Task)) (a a' : Abbey) (i : nat) :
  dedicatedTaskBuffer a = 2 ->
  Forall (fun r => r <> ReallocNull) env ->
  search_loop st newState mayFail env a = Claimed i a' ->
  2 <= i.
Proof.
  revert a. induction env as [|r env IH]; intros a Hd Hok; simpl; [discriminate|].
  apply Forall_cons in Hok as [Hr Hok].
  unfold search_pass. destruct (first_in_state a st) as [j|] eqn:E.
  - intros [= <- <-]. apply first_in_state_spec in E as [Hj _]. lia.
  - destruct (mayFail || (dedicatedTaskBuffer a =? 0)); [discriminate|].
    apply IH; [|exact Hok].
    destruct r as [|fresh]; [congruence|reflexivity].
Qed.

(** C3, as stated, fails: after [realloc] has failed once,
    [dedicatedTaskBuffer] is 0; a dispatch that then finds no slot in the
    READY state takes the [pthread_cond_wait] branch and is queued on
    [abbeyCond], without any growth. *)
Lemma dispatch_queued_counterexample :
  no_slot_ready three_out = true /\
  dispatch_described_task (fn_app 4) 0 "four" [zeroed] three_out
    = Queued (with_abbeyMutex false three_out).
Proof. split; reflexivity. Qed.

(** C3, amended: a dispatch that finds no READY slot at or after
    [dedicatedTaskBuffer] is not queued while [dedicatedTaskBuffer] is not
    0: that pass runs [increaseTaskBuffer] in the caller and the search
    goes round again on the result; if [realloc] succeeds the array has
    [taskBufferContent] more slots and [dedicatedTaskBuffer] is 2 again.
    With [dedicatedTaskBuffer] at 0 the caller waits on [abbeyCond]. *)
Theorem dispatch_grows_unless_reserve_open
    (a : Abbey) (r : realloc_reply Task) (env : list (realloc_reply Task)) :
  first_in_state a TS_READY = None ->
  (dedicatedTaskBuffer a <> 0 ->
     let grown :=
       with_abbeyMutex false
         (increaseTaskBuffer (taskBufferContent a) r
            (with_dedicatedTaskBuffer 0 (with_abbeyMutex true a))) in
     search_pass TS_READY TS_CREATING false r (with_abbeyMutex true a) = Again grown /\
     find_task_and_change_state TS_READY TS_CREATING false (r :: env) a
       = search_loop TS_READY TS_CREATING false env grown /\
     (forall fresh, r = ReallocOk fresh ->
        nofTasks grown = nofTasks a + taskBufferContent a /\
        dedicatedTaskBuffer grown = 2 /\
        length (task grown) = nofTasks grown)) /\
  (dedicatedTaskBuffer a = 0 ->
     find_task_and_change_state TS_READY TS_CREATING false (r :: env) a
       = Waiting (with_abbeyMutex false a)).
Proof.
  intros Hnone.
  assert (Hnone' : first_in_state (with_abbeyMutex true a) TS_READY = None) by exact Hnone.
  split.
  - intros Hd grown.
    assert (Hpass : search_pass TS_READY TS_CREATING false r (with_abbeyMutex true a)
                    = Again grown).
    { unfold search_pass. rewrite Hnone'. simpl.
      destruct (dedicatedTaskBuffer a) eqn:E; [congruence|reflexivity]. }
    split; [exact Hpass|]. split.
    + unfold find_task_and_change_state. simpl. rewrite Hpass. reflexivity.
    + intros fresh ->. subst grown. simpl. repeat split.
      rewrite length_app, length_take, length_map, length_seq. lia.
  - intros Hd. unfold find_task_and_change_state. simpl.
    unfold search_pass. rewrite Hnone'. simpl. rewrite Hd. reflexivity.
Qed.

Lemma dispatch_grows_unless_reserve_open_witness :
  find_task_and_change_state TS_READY TS_CREATING false [zeroed; zeroed] one_out
    = Claimed 3
        (with_task (alter (set_state TS_CREATING) 3
                      (task one_out ++ replicate 4 zero_task))
           (with_nofTasks 7 one_out)).
Proof.
  destruct (dispatch_grows_unless_reserve_open one_out zeroed [zeroed] eq_refl)
    as [H _].
  destruct (H ltac:(discriminate)) as (_ & -> & _).
  reflexivity.
Defined.

(** C4 on the code: [booted] has three slots, the first dispatch takes
    slot 2. During the second dispatch [realloc] returns [NULL]:
    [increaseTaskBuffer] returns before it sets [dedicatedTaskBuffer]
    back to 2, the search goes round from index 0 and the ordinary
    dispatch takes the reserved slot 0 from READY to CREATING. *)
Theorem reserved_slot_claimed_after_failed_growth :
  dedicatedTaskBuffer one_out = 2 /\
  state <$> task one_out !! 0 = Some TS_READY /\
  exists a',
    find_task_and_change_state TS_READY TS_CREATING false
      [ReallocNull; ReallocNull] one_out = Claimed 0 a' /\
    state <$> task a' !! 0 = Some TS_CREATING /\
    dedicatedTaskBuffer a' = 0 /\
    dispatch_described_task (fn_app 2) 0 "two" [ReallocNull; ReallocNull] one_out
      = Returned 0%Z two_out /\
    task two_out !! 0 = Some (mkTask TS_OPEN (fn_app 2) 0 "two").
Proof.
  split; [reflexivity|]. split; [reflexivity|].
  eexists. split; [reflexivity|]. repeat split.
Qed.

(** C6, as stated, fails: on [booted4] the first dispatch claims slot 2
    and the second claims slot 3; both calls return 0, which is neither
    slot and does not tell them apart. *)
Lemma dispatch_return_counterexample :
  exists a1 a2 a3 a4,
    find_task_and_change_state TS_READY TS_CREATING false [zeroed] booted4
      = Claimed 2 a1 /\
    dispatch_described_task (fn_app 1) 0 "one" [zeroed] booted4 = Returned 0%Z a2 /\
    find_task_and_change_state TS_READY TS_CREATING false [zeroed] a2
      = Claimed 3 a3 /\
    dispatch_described_task (fn_app 2) 0 "two" [zeroed] a2 = Returned 0%Z a4.
Proof. do 4 eexists. repeat split; reflexivity. Qed.

(** C6, amended: every dispatch that returns, returns 0. The slot it
    claimed is the index the READY to CREATING search returned; the call
    fills that slot with the function, the context and the description
    cut to 63 characters and leaves it OPEN, and keeps the index to
    itself. *)
Theorem dispatch_returns_zero
    (fn : funptr) (ctx : ptr) (taskDesc : string)
    (env : list (realloc_reply Task)) (a a' : Abbey) (ret : Z) :
  dispatch_described_task fn ctx taskDesc env a = Returned ret a' ->
  ret = 0%Z /\
  exists i a1,
    find_task_and_change_state TS_READY TS_CREATING false env a = Claimed i a1 /\
    task a' !! i = Some (mkTask TS_OPEN fn ctx (strncpy taskDesc 63)) /\
    forall j, j <> i -> task a' !! j = task a1 !! j.
Proof.
  unfold dispatch_described_task.
  destruct (find_task_and_change_state TS_READY TS_CREATING false env a)
    as [i a1|a1|a1] eqn:E; try discriminate.
  simpl. intros [= <- <-]. split; [reflexivity|].
  exists i, a1. split; [reflexivity|].
  apply search_loop_claimed in E as (t & Ht & _). simpl. split.
  - rewrite !list_lookup_alter_eq, Ht. reflexivity.
  - intros j Hj. rewrite !list_lookup_alter_ne by congruence. reflexivity.
Qed.

Lemma dispatch_returns_zero_witness :
  exists i a1,
    find_task_and_change_state TS_READY TS_CREATING false [zeroed] booted
      = Claimed i a1 /\
    task one_out !! i = Some (mkTask TS_OPEN (fn_app 1) 0 "one").
Proof.
  destruct (dispatch_returns_zero (fn_app 1) 0 "one" [zeroed] booted one_out 0%Z eq_refl)
    as (_ & i & a1 & H1 & H2 & _).
  exists i, a1. split; [exact H1 | exact H2].
Defined.

(** C9 on the code: whenever [realloc] succeeds, [addMonk] increments
    [nofMonks] and then addresses [threadId[nofMonks]]; the block has
    [nofMonks] entries, so the index is one past its last entry. *)
Theorem addMonk_index_past_the_end
    (a : Abbey) (fresh : nat -> pthread_t) (spawn : option pthread_t) :
  exists a1,
    addMonk (ReallocOk fresh) spawn a
      = AddMonkOutOfBounds (nofMonks a + 1) (nofMonks a + 1) a1 /\
    length (threadId a1) = nofMonks a + 1 /\
    nofMonks a1 = nofMonks a + 1 /\
    threadId a1 !! (nofMonks a1) = None.
Proof.
  unfold addMonk.
  destruct (realloc (threadId a) (nofMonks a + 1) (ReallocOk fresh)) as [new|] eqn:E;
    [|discriminate].
  pose proof (realloc_length _ _ _ _ E) as Hlen. simpl.
  destruct (decide (nofMonks a + 1 < length new)) as [Hlt|_]; [lia|].
  eexists. rewrite Hlen. split; [reflexivity|]. simpl.
  repeat split; [exact Hlen|]. apply lookup_ge_None. lia.
Qed.

(** The slots a successful [increaseTaskBuffer] adds hold what [realloc]
    left in the extension of the block; the function writes none of them. *)
Lemma increaseTaskBuffer_new_slots
    (a : Abbey) (amount : nat) (fresh : nat -> Task) (i : nat) :
  length (task a) = nofTasks a ->
  nofTasks a <= i < nofTasks a + amount ->
  task (increaseTaskBuffer amount (ReallocOk fresh) a) !! i = Some (fresh i).
Proof.
  intros Hlen Hi. unfold increaseTaskBuffer. simpl.
  apply realloc_fresh; lia.
Qed.

Lemma increaseTaskBuffer_old_slots
    (a : Abbey) (amount : nat) (fresh : nat -> Task) (i : nat) :
  length (task a) = nofTasks a ->
  i < nofTasks a ->
  task (increaseTaskBuffer amount (ReallocOk fresh) a) !! i = task a !! i.
Proof.
  intros Hlen Hi. unfold increaseTaskBuffer. simpl.
  apply realloc_keeps; lia.
Qed.

(** C10 on the code: [one_out] has three slots. A successful
    [increaseTaskBuffer] on a block whose extension holds stale memory
    adds four slots in state 2 (OPEN), none of them READY. With slot 2
    taken by a monk (BUSY), the next monk that looks for an OPEN slot
    claims slot 3, which no dispatch ever filled, and would call the
    stale function pointer in it. *)
Theorem fresh_slots_not_ready :
  let grown := increaseTaskBuffer (taskBufferContent one_out) stale one_out in
  nofTasks grown = 7 /\
  state <$> drop 3 (task grown) = [TS_OPEN; TS_OPEN; TS_OPEN; TS_OPEN] /\
  exists a',
    monk_claim (with_task (alter (set_state TS_BUSY) 2 (task grown)) grown)
      = Claimed 3 a' /\
    task a' !! 3 = Some (mkTask TS_BUSY (fn_app 9) 0 "stale").
Proof.
  simpl. split; [reflexivity|]. split; [reflexivity|].
  eexists. split; reflexivity.
Qed.

End AbbeyFacts.

(** ** The counting handshake *)

Module PtreatyFacts.
Import Pthread Ptreaty.

(** With the gate hoisted but the baton held, the signaller is suspended
    on the baton: in the intended use the waiter holds it until it is
    inside [pthread_cond_wait]. *)
Lemma make_m_run_waits_for_baton (t o r : tid) (st : SyncThreads) :
  request st = Some r -> baton st = Some o ->
  ptreaty_make_m_run t st = Blocks st.
Proof.
  destruct st as [rq bt p f]. simpl. intros -> ->. reflexivity.
Qed.

(** C2, as stated, fails: on a channel fresh from [ptreaty_init] nobody
    waits and the gate is not hoisted; [ptreaty_make_m_run] returns with
    the counter still 0 and the [ptreaty_wait] that follows blocks. The
    same happens when the waiter takes the baton first and hoists the
    flag only after the signal, as the main threads of the processes do. *)
Lemma early_signal_lost_counterexample :
  ptreaty_make_m_run 1 ptreaty_init = Done ptreaty_init /\
  ptreaty_wait 0 ptreaty_init = Blocks ptreaty_init /\
  and_then (ptreaty_init_baton 0 ptreaty_init) (fun st =>
  and_then (ptreaty_make_m_run 1 st) (fun st =>
  and_then (ptreaty_hoist_flag 0 st) (fun st =>
  ptreaty_wait 0 st)))
    = Blocks (mkSync (Some 0) None 0%Z 0%Z).
Proof. repeat split. Qed.

(** C2, amended: [ptreaty_make_m_run] leaves a trace in the counter only
    if the gate is hoisted when it is called. Hoisted, with the baton
    free, it raises the counter by one and the next [ptreaty_wait] lowers
    it again and returns without waiting. Not hoisted, it takes and
    releases the request mutex and changes nothing, and a [ptreaty_wait]
    that finds the counter at 0 blocks. *)
Theorem make_m_run_counts_only_when_hoisted (t w : tid) (st : SyncThreads) :
  (0 <= predicate st < 255)%Z ->
  (request st <> None -> baton st = None ->
     ptreaty_make_m_run t st = Done (with_predicate (predicate st + 1) st) /\
     ptreaty_wait w (with_predicate (predicate st + 1) st) = Done st) /\
  (request st = None ->
     ptreaty_make_m_run t st = Done st /\
     (predicate st = 0%Z ->
      ptreaty_wait w st = Blocks (with_baton None st))).
Proof.
  intros Hp. destruct st as [rq bt p f]. simpl in *. split.
  - intros Hrq ->. destruct rq as [o|]; [|congruence].
    unfold ptreaty_make_m_run, ptreaty_wait, uint8. simpl.
    rewrite Z.mod_small by lia. split; [reflexivity|].
    destruct (p + 1 =? 0)%Z eqn:E; [apply Z.eqb_eq in E; lia|].
    rewrite Z.mod_small by lia. replace (p + 1 - 1)%Z with p by lia. reflexivity.
  - intros ->. split; [reflexivity|]. intros ->. reflexivity.
Qed.

Lemma make_m_run_counts_only_when_hoisted_witness :
  ptreaty_make_m_run 1 (mkSync (Some 0) None 0%Z 0%Z)
    = Done (mkSync (Some 0) None 1%Z 0%Z) /\
  ptreaty_wait 0 (mkSync (Some 0) None 1%Z 0%Z)
    = Done (mkSync (Some 0) None 0%Z 0%Z).
Proof.
  destruct (make_m_run_counts_only_when_hoisted 1 0 (mkSync (Some 0) None 0%Z 0%Z))
    as [H _]; [simpl; lia|].
  apply H; [discriminate | reflexivity].
Defined.

End PtreatyFacts.

(** ** The registry *)

Module PosetaFacts.
Import Libc Abbey Log Poseta.

(** Registering never changes what a lookup of a registered name finds. *)
Lemma addCondition_keeps (c c0 : Condition) (n : funptr) (p : Poseta) :
  lookup_name n (cond p) = Some c0 ->
  lookup_name n (cond (addCondition c p)) = Some c0.
Proof.
  intros H. unfold addCondition, getCondition.
  destruct (cond p) as [|d l] eqn:E; [discriminate|].
  destruct (lookup_name (name c) (d :: l)) as [e|] eqn:L.
  - simpl. rewrite E. exact H.
  - cbn [with_cond cond lookup_name].
    destruct (decide (name c = n)) as [<-|_]; [congruence|]. exact H.
Qed.

(** C7: a condition whose name is already registered is rejected.
    [addCondition] leaves the list of conditions, the heap and the
    scheduler as they are, makes the one [tprintf] call at [LOG_ALERT]
    with the text "Condition exists already" (printed whenever alerts are
    within the verbosity), and a lookup of the name still finds the
    original entry. The same holds for the first registration made by
    [poseta_func1_if_func0] with a [func0] already registered, whatever
    becomes of [func1]. *)
Theorem addCondition_rejects_duplicate (c c0 : Condition) (p : Poseta) :
  lookup_name (name c) (cond p) = Some c0 ->
  cond (addCondition c p) = cond p /\
  ptasks (addCondition c p) = ptasks p /\
  (getCondition (name c) (addCondition c p)).1 = Some c0 /\
  logconf (addCondition c p)
    = tprintf LOG_ALERT "addCondition" "Condition exists already" (logconf p) /\
  ((LOG_ALERT <= levelOfVerbosity (logconf p))%Z ->
   printed (logconf (addCondition c p))
     = printed (logconf p)
       ++ [mkLine LOG_ALERT "addCondition" "Condition exists already"]) /\
  (forall func1 junk0 junk1,
     lookup_name (name c)
       (cond (poseta_func1_if_func0 (name c) func1 junk0 junk1 p)) = Some c0).
Proof.
  intros H.
  assert (Hadd : addCondition c p
                 = log LOG_ALERT "addCondition" "Condition exists already" p).
  { unfold addCondition, getCondition.
    destruct (cond p) as [|d l] eqn:E; [discriminate|]. rewrite H. reflexivity. }
  rewrite Hadd. simpl. repeat split.
  - unfold getCondition. simpl.
    destruct (cond p) as [|d l] eqn:E; [discriminate|]. simpl. exact H.
  - intros Hlv. unfold tprintf.
    destruct (LOG_ALERT >? levelOfVerbosity (logconf p))%Z eqn:G; [lia|reflexivity].
  - intros func1 junk0 junk1. unfold poseta_func1_if_func0.
    apply addCondition_keeps. simpl. apply addCondition_keeps. simpl. exact H.
Qed.

Lemma getCondition_found (fn : funptr) (p : Poseta) (lc : Condition) :
  lookup_name fn (cond p) = Some lc -> getCondition fn p = (Some lc, p).
Proof.
  unfold getCondition. destruct (cond p) as [|d l]; [discriminate|].
  intros ->. reflexivity.
Qed.

Lemma tprintf_level (v : Z) (f m : string) (lc : LogConf) :
  levelOfVerbosity (tprintf v f m lc) = levelOfVerbosity lc.
Proof. unfold tprintf. destruct (v >? levelOfVerbosity lc)%Z; reflexivity. Qed.

Lemma getCondition_missing (fn : funptr) (p : Poseta) :
  lookup_name fn (cond p) = None ->
  exists p1,
    getCondition fn p = (None, p1) /\
    cond p1 = cond p /\ ptasks p1 = ptasks p /\ abbey p1 = abbey p /\
    levelOfVerbosity (logconf p1) = levelOfVerbosity (logconf p).
Proof.
  unfold getCondition. destruct (cond p) as [|d l] eqn:E.
  - intros _. eexists. split; [reflexivity|]. simpl.
    repeat split; [exact E | apply tprintf_level].
  - intros ->. exists p. repeat split. exact E.
Qed.

(** A registered function is dispatched through its entry: the wrapper
    [exec], with the [PosetaTask] as context. *)
Lemma dispatch_registered
    (fn : funptr) (ctx : ptr) (taskDesc : string)
    (env : list (realloc_reply Task)) (p : Poseta) (lc : Condition) :
  lookup_name fn (cond p) = Some lc ->
  exists p2,
    abbey p2 = abbey p /\
    dispatch_poseta_task fn ctx taskDesc env p
      = Dispatched
          (dispatch_described_task (exec lc) (cond_context lc) taskDesc env (abbey p))
          (with_abbey
             (abbey_of (dispatch_described_task (exec lc) (cond_context lc)
                          taskDesc env (abbey p))) p2).
Proof.
  intros H. unfold dispatch_poseta_task.
  rewrite (getCondition_found fn _ lc) by exact H.
  destruct (decide (condition_index lc = 0%Z \/ condition_index lc = 1%Z));
    eexists; (split; [|reflexivity]); reflexivity.
Qed.

(** C5: a function no condition is registered for. [getCondition]
    returns [NULL]; [dispatch_poseta_task] makes its [tprintf] call at
    [LOG_WARNING] (printed whenever warnings are within the verbosity),
    jumps to [fallback] and there evaluates [lc->exec] and [lc->context]
    through the null pointer. Nothing is handed to the scheduler: the
    scheduler, the registry and the heap are as before. *)
Theorem dispatch_unregistered_dereferences_null
    (fn : funptr) (ctx : ptr) (taskDesc : string)
    (env : list (realloc_reply Task)) (p : Poseta) :
  lookup_name fn (cond p) = None ->
  (getCondition fn p).1 = None /\
  exists p',
    dispatch_poseta_task fn ctx taskDesc env p = NullDereference p' /\
    abbey p' = abbey p /\ cond p' = cond p /\ ptasks p' = ptasks p /\
    ((LOG_WARNING <= levelOfVerbosity (logconf p))%Z ->
     list.last (printed (logconf p'))
       = Some (mkLine LOG_WARNING "dispatch_poseta_task"
                 ("Task " +:+ dquote +:+ taskDesc +:+ dquote
                  +:+ " is not registered before!"))).
Proof.
  intros H. split.
  { unfold getCondition. destruct (cond p); [reflexivity|exact H]. }
  assert (Hlv : forall v f m lc, (v <= levelOfVerbosity lc)%Z ->
            tprintf v f m lc = mkLog (levelOfVerbosity lc) (printed lc ++ [mkLine v f m])).
  { intros v f m lc Hle. unfold tprintf.
    destruct (v >? levelOfVerbosity lc)%Z eqn:G; [lia|reflexivity]. }
  unfold dispatch_poseta_task.
  destruct (getCondition_missing fn (log LOG_VERBOSE "dispatch_poseta_task" taskDesc p) H)
    as (p1 & -> & Hc & Ht & Ha & Hl).
  eexists. split; [reflexivity|]. simpl.
  split; [exact Ha|]. split; [exact Hc|]. split; [exact Ht|].
  intros Hle. rewrite Hlv.
  - simpl. apply last_snoc.
  - rewrite Hl. simpl. rewrite tprintf_level. exact Hle.
Qed.

Lemma dispatch_unregistered_dereferences_null_witness :
  exists p',
    dispatch_poseta_task (fn_app 5) 0 "boot" [Scenarios.zeroed]
      (poseta_func1_if_func0 (fn_app 1) (fn_app 2) 0 0
         (initPoseta (mkLog 6%Z []) Scenarios.booted))
      = NullDereference p' /\
    abbey p' = Scenarios.booted.
Proof.
  destruct (dispatch_unregistered_dereferences_null (fn_app 5) 0 "boot"
              [Scenarios.zeroed]
              (poseta_func1_if_func0 (fn_app 1) (fn_app 2) 0 0
                 (initPoseta (mkLog 6%Z []) Scenarios.booted)))
    as (_ & p' & H1 & H2 & _); [reflexivity|].
  exists p'. split; [exact H1 | exact H2].
Defined.

Lemma addCondition_rejects_duplicate_witness :
  cond (addCondition (mkCondition (fn_app 1) 0%Z fn_poseta_task 7)
          (poseta_func1_if_func0 (fn_app 1) (fn_app 2) 0 0
             (initPoseta (mkLog 6%Z []) Scenarios.booted)))
  = [mkCondition (fn_app 2) 1%Z fn_poseta_task 1;
     mkCondition (fn_app 1) 0%Z fn_poseta_task 0].
Proof.
  destruct (addCondition_rejects_duplicate
              (mkCondition (fn_app 1) 0%Z fn_poseta_task 7)
              (mkCondition (fn_app 1) 0%Z fn_poseta_task 0)
              (poseta_func1_if_func0 (fn_app 1) (fn_app 2) 0 0
                 (initPoseta (mkLog 6%Z []) Scenarios.booted)))
    as [H _]; [reflexivity|].
  rewrite H. reflexivity.
Defined.

End PosetaFacts.

(** ** The precedence protocol *)

Module PrecedenceFacts.
Import Pthread Ptreaty Precedence.

Lemma has_left_snoc (tr : list event) (e : event) :
  has_left (tr ++ [e])
  = has_left tr || match e with Leave First => true | _ => false end.
Proof.
  unfold has_left. rewrite existsb_app. simpl. rewrite orb_false_r. reflexivity.
Qed.

Lemma ordered_from_snoc (b : bool) (tr : list event) (e : event) :
  ordered_from b (tr ++ [e])
  = ordered_from b tr
    && match e with Enter Later => b || has_left tr | _ => true end.
Proof.
  revert b. induction tr as [|[[|]|[|]] tr IH]; intros b; simpl.
  - destruct e as [[|]|[|]]; simpl; rewrite ?orb_false_r, ?andb_true_r; reflexivity.
  - apply IH.
  - rewrite IH. rewrite andb_assoc. reflexivity.
  - rewrite IH. destruct e as [[|]|[|]]; simpl; rewrite ?orb_true_r; reflexivity.
  - apply IH.
Qed.

Ltac settle_inv tr :=
  unfold inv, ordered in *; simpl in *;
  rewrite ?ordered_from_snoc, ?has_left_snoc;
  destruct (ordered_from false tr), (has_left tr); simpl in *;
  congruence.

(** Every step other than a spurious wake-up keeps the invariant. *)
Lemma inv_step (m : move) (s s' : state) :
  signalled m = true -> inv s = true -> step m s = Some s' -> inv s' = true.
Proof.
  destruct s as [[rq bt p f] pf pl tr].
  destruct m as [[|]|]; [| |discriminate]; intros _ Hinv Hstep.
  - unfold step, step_first in Hstep. simpl in Hstep.
    destruct pf, rq as [[|[|?]]|], bt; simpl in Hstep;
      inversion Hstep; subst; clear Hstep; destruct pl; settle_inv tr.
  - unfold step, step_later in Hstep. simpl in Hstep.
    destruct pl, rq as [[|[|?]]|], bt; simpl in Hstep;
      inversion Hstep; subst; clear Hstep; destruct pf; settle_inv tr.
Qed.

Lemma inv_exec (sched : list move) (s : state) :
  forallb signalled sched = true -> inv s = true -> inv (exec sched s) = true.
Proof.
  revert s. induction sched as [|m sched IH]; intros s Hs Hinv; [exact Hinv|].
  simpl in Hs. apply andb_true_iff in Hs as [Hm Hs].
  unfold exec. simpl. apply IH; [exact Hs|].
  destruct (step m s) as [s'|] eqn:E; simpl; [|exact Hinv].
  exact (inv_step m s s' Hm Hinv E).
Qed.

(** As long as [pthread_cond_wait] returns only after the broadcast, the
    order holds on every schedule: the real call of [func1] is never
    entered before the real call of [func0] has been left. *)
Lemma precedence_without_spurious_wakeups (sched : list move) :
  forallb signalled sched = true ->
  ordered (trace (exec sched init)) = true.
Proof.
  intros Hs. pose proof (inv_exec sched init Hs eq_refl) as H.
  unfold inv in H. rewrite !andb_true_iff in H. tauto.
Qed.

(** The model runs both arrival orders to the end. *)
Lemma later_first_completes :
  trace (exec later_first init) = [Enter First; Leave First; Enter Later; Leave Later] /\
  pcF (exec later_first init) = F_returned /\
  pcL (exec later_first init) = L_returned.
Proof. repeat split. Qed.

Lemma first_first_completes :
  trace (exec first_first init) = [Enter First; Leave First; Enter Later; Leave Later] /\
  pcF (exec first_first init) = F_returned /\
  pcL (exec first_first init) = L_returned.
Proof. repeat split. Qed.

(** C1 on the code: [func1] is dispatched first. Its wrapper takes the
    request mutex, then the baton, and sleeps in
    [pthread_cond_wait(signal, request)]. [ptreaty_should_be_later] calls
    the wait once, with no predicate to test when it returns. If the wait
    returns without a signal, the wrapper goes on to the real call of
    [func1], which is entered and left while the thread of [func0] has
    not made a step. *)
Theorem spurious_wakeup_breaks_precedence :
  trace (exec woken_early init) = [Enter Later; Leave Later] /\
  pcF (exec woken_early init) = F_call /\
  pcL (exec woken_early init) = L_returned /\
  ordered (trace (exec woken_early init)) = false.
Proof. repeat split. Qed.

End PrecedenceFacts.

(** ** The mailbox *)

Module TcpipFacts.
Import Pthread Tcpip.

Lemma chain_allocated (h : gmap nat TcpipMessage) (p : option nat) (l : list nat) (x : nat) :
  chain h p l -> x ∈ l -> is_Some (h !! x).
Proof.
  revert p. induction l as [|a l IH]; intros p Hc Hx.
  - inversion Hx.
  - destruct Hc as (_ & m & Hm & Hc).
    apply elem_of_cons in Hx as [->|Hx]; [eauto|].
    exact (IH _ Hc Hx).
Qed.

(** Writing a message that is not on the chain leaves the chain alone. *)
Lemma chain_insert_other (h : gmap nat TcpipMessage) (p : option nat) (l : list nat)
    (x : nat) (mx : TcpipMessage) :
  chain h p l -> x ∉ l -> chain (<[x := mx]> h) p l.
Proof.
  revert p. induction l as [|a l IH]; intros p Hc Hx; [exact Hc|].
  destruct Hc as (-> & m & Hm & Hc).
  apply not_elem_of_cons in Hx as [Hxa Hx].
  split; [reflexivity|]. exists m. split.
  - rewrite lookup_insert_ne by congruence. exact Hm.
  - exact (IH _ Hc Hx).
Qed.

(** Linking [m] behind the newest message extends the chain by [m]. *)
Lemma chain_snoc (h : gmap nat TcpipMessage) (p : option nat) (l : list nat)
    (lst m : nat) (ml mm : TcpipMessage) :
  chain h p l -> NoDup l -> list.last l = Some lst ->
  h !! lst = Some ml -> m ∉ l ->
  chain (<[m := set_next None mm]> (<[lst := set_next (Some m) ml]> h)) p (l ++ [m]).
Proof.
  revert p. induction l as [|a l IH]; intros p Hc Hnd Hlast Hl Hm; [discriminate|].
  destruct Hc as (-> & ma & Ha & Hc).
  apply NoDup_cons in Hnd as [Hal Hnd].
  apply not_elem_of_cons in Hm as [Hma Hm].
  simpl. split; [reflexivity|].
  destruct l as [|b l].
  - simpl in Hlast. injection Hlast as <-.
    rewrite Ha in Hl. injection Hl as <-.
    exists (set_next (Some m) ma). split.
    + rewrite lookup_insert_ne by congruence. apply lookup_insert_eq.
    + simpl. split; [reflexivity|]. exists (set_next None mm). split.
      * apply lookup_insert_eq.
      * reflexivity.
  - rewrite last_cons_cons in Hlast.
    assert (Hin : lst ∈ b :: l) by (apply last_Some_elem_of; exact Hlast).
    exists ma. split.
    + rewrite !lookup_insert_ne by (intros ->; contradiction). exact Ha.
    + apply IH; assumption.
Qed.

Lemma push_holds (t : tid) (h : gmap nat TcpipMessage) (M : TcpipMailbox)
    (l : list nat) (m : nat) :
  holds h M l -> is_Some (h !! m) -> m ∉ l ->
  exists h1 M1, push t h M m = Ok (h1, M1) /\ holds h1 M1 (l ++ [m]).
Proof.
  intros (Hlock & Hc & Hnd & Hlast) [mm Hmm] Hm.
  destruct M as [f la lk]. simpl in *. subst lk. unfold push. simpl.
  destruct l as [|a l].
  - simpl in Hc. subst f. rewrite Hmm.
    eexists _, _. split; [reflexivity|].
    split; [reflexivity|]. simpl. split.
    + split; [reflexivity|]. exists (set_next None mm). split.
      * apply lookup_insert_eq.
      * reflexivity.
    + split; [apply NoDup_singleton|]. intros _. reflexivity.
  - assert (Hf : f = Some a) by (destruct Hc as [-> _]; reflexivity). subst f.
    rewrite (Hlast ltac:(discriminate)).
    destruct (list.last (a :: l)) as [lst|] eqn:El;
      [|apply last_None in El; discriminate].
    assert (Hin : lst ∈ a :: l) by (apply last_Some_elem_of; exact El).
    destruct (chain_allocated _ _ _ _ Hc Hin) as [ml Hml]. rewrite Hml.
    rewrite lookup_insert_ne by (intros ->; contradiction). rewrite Hmm.
    eexists _, _. split; [reflexivity|].
    split; [reflexivity|]. simpl. split.
    + exact (chain_snoc h (Some a) (a :: l) lst m ml mm Hc Hnd El Hml Hm).
    + split.
      * rewrite app_comm_cons. apply NoDup_app. split; [exact Hnd|]. split.
        -- intros x Hx Hx'. apply list_elem_of_singleton in Hx'. subst x. contradiction.
        -- apply NoDup_singleton.
      * intros _. rewrite app_comm_cons, last_snoc. reflexivity.
Qed.

Lemma pop_holds (t : tid) (h : gmap nat TcpipMessage) (M : TcpipMailbox)
    (a : nat) (l : list nat) :
  holds h M (a :: l) ->
  exists h1 M1, pop t h M = Ok (Some a, h1, M1) /\ holds h1 M1 l /\
                next <$> h1 !! a = Some None.
Proof.
  intros (Hlock & Hc & Hnd & Hlast).
  destruct M as [f la lk]. simpl in *. subst lk.
  destruct Hc as (-> & ma & Ha & Hc).
  apply NoDup_cons in Hnd as [Hal Hnd].
  unfold pop. simpl. rewrite Ha.
  eexists _, _. split; [reflexivity|]. split.
  - split; [reflexivity|]. simpl. split.
    + apply chain_insert_other; assumption.
    + split; [exact Hnd|]. intros Hne.
      rewrite (Hlast ltac:(discriminate)).
      destruct l as [|b l]; [congruence|]. apply last_cons_cons.
  - rewrite lookup_insert_eq. reflexivity.
Qed.

Lemma pop_empty (t : tid) (h : gmap nat TcpipMessage) (M : TcpipMailbox) :
  holds h M [] -> pop t h M = Ok (None, h, M).
Proof.
  intros (Hlock & Hc & _). destruct M as [f la lk]. simpl in *. subst. reflexivity.
Qed.

(** C8: the mailbox is a FIFO whose [pop] never waits for a message.
    For a mailbox that holds the messages [l], oldest first:
    - if it is empty, [pop] returns [NULL] at once and changes nothing;
    - if it is empty, [push m] followed by [pop] returns [m] and leaves it
      empty;
    - [push m] puts [m] behind all messages present;
    - [pop] returns the oldest message and leaves the others in order. *)
Theorem mailbox_fifo (t : tid) (h : gmap nat TcpipMessage) (M : TcpipMailbox)
    (l : list nat) :
  holds h M l ->
  (l = [] -> pop t h M = Ok (None, h, M)) /\
  (l = [] -> forall m, is_Some (h !! m) ->
     exists h1 M1 h2 M2,
       push t h M m = Ok (h1, M1) /\
       pop t h1 M1 = Ok (Some m, h2, M2) /\
       holds h2 M2 []) /\
  (forall m, is_Some (h !! m) -> m ∉ l ->
     exists h1 M1, push t h M m = Ok (h1, M1) /\ holds h1 M1 (l ++ [m])) /\
  (forall a l', l = a :: l' ->
     exists h1 M1, pop t h M = Ok (Some a, h1, M1) /\ holds h1 M1 l').
Proof.
  intros H. repeat split.
  - intros ->. apply pop_empty. exact H.
  - intros -> m Hm.
    destruct (push_holds t h M [] m H Hm ltac:(apply not_elem_of_nil))
      as (h1 & M1 & Hpush & H1).
    destruct (pop_holds t h1 M1 m [] H1) as (h2 & M2 & Hpop & H2 & _).
    exists h1, M1, h2, M2. auto.
  - intros m Hm Hnew. exact (push_holds t h M l m H Hm Hnew).
  - intros a l' ->.
    destruct (pop_holds t h M a l' H) as (h1 & M1 & Hpop & H1 & _). eauto.
Qed.

Lemma mailbox_fifo_witness :
  exists h1 M1 h2 M2,
    push 0 {[ 5 := mkMessage 2%Z [1%Z; 2%Z] None ]} (mkMailbox None None None) 5
      = Ok (h1, M1) /\
    pop 0 h1 M1 = Ok (Some 5, h2, M2) /\
    holds h2 M2 [].
Proof.
  destruct (mailbox_fifo 0 {[ 5 := mkMessage 2%Z [1%Z; 2%Z] None ]}
              (mkMailbox None None None) []) as (_ & H & _).
  - split; [reflexivity|]. split; [reflexivity|]. split; [apply NoDup_nil_2|].
    intros Hne. exfalso. apply Hne. reflexivity.
  - apply H; [reflexivity|]. exists (mkMessage 2%Z [1%Z; 2%Z] None).
    apply lookup_singleton_eq.
Defined.

End TcpipFacts.

(** ** The scheduler, continued *)

Module MonkFacts.
Import Libc Abbey Monk Scenarios.

Lemma create_monks_ok (spawn : nat -> option pthread_t) (n i : nat) (ids : list pthread_t) :
  i + n <= length ids ->
  (forall j, i <= j < i + n -> is_Some (spawn j)) ->
  exists ids',
    create_monks spawn n i ids = Some ids' /\
    length ids' = length ids /\
    (forall j, i <= j < i + n -> ids' !! j = spawn j) /\
    (forall j, j < i -> ids' !! j = ids !! j).
Proof.
  revert i ids. induction n as [|n IH]; intros i ids Hlen Hok.
  - exists ids. simpl. repeat split; intros; lia.
  - simpl. destruct (Hok i ltac:(lia)) as [h Hh]. rewrite Hh.
    destruct (IH (S i) (<[i := h]> ids)) as (ids' & -> & Hl & Hnew & Hold).
    + rewrite length_insert. lia.
    + intros j Hj. apply Hok. lia.
    + exists ids'. split; [reflexivity|]. rewrite length_insert in Hl.
      split; [exact Hl|]. split.
      * intros j Hj. destruct (decide (j = i)) as [->|Hne].
        -- rewrite Hold by lia. rewrite list_lookup_insert_eq by lia.
           symmetry. exact Hh.
        -- apply Hnew. lia.
      * intros j Hj. rewrite Hold by lia.
        apply list_lookup_insert_ne. lia.
Qed.

Lemma create_monks_fail (spawn : nat -> option pthread_t) (n i k : nat) (ids : list pthread_t) :
  i <= k < i + n -> spawn k = None -> create_monks spawn n i ids = None.
Proof.
  revert i ids. induction n as [|n IH]; intros i ids Hk Hs; [lia|].
  simpl. destruct (spawn i) as [h|] eqn:E; [|reflexivity].
  apply IH; [|exact Hs].
  destruct (decide (k = i)) as [->|]; [congruence|lia].
Qed.

(** [initialize_abbey]: whatever becomes of the threads, the task array
    has [taskBuffer] slots, all zeroed and so READY, and two of them are
    reserved. The call returns 0 exactly when every [pthread_create]
    succeeded, and then the handle array holds the handles in order; it
    returns -1 as soon as one fails. *)
Theorem initialize_abbey_sets_up
    (monkCount taskBuffer : nat) (spawn : nat -> option pthread_t) :
  let rc := (initialize_abbey monkCount taskBuffer spawn).1 in
  let a := (initialize_abbey monkCount taskBuffer spawn).2 in
  sized a /\ nofTasks a = taskBuffer /\
  (forall i, i < taskBuffer -> task a !! i = Some zero_task) /\
  nofMonks a = monkCount /\ length (threadId a) = monkCount /\
  dedicatedTaskBuffer a = 2 /\ abbeyMutex a = false /\
  (rc = 0%Z \/ rc = (-1)%Z) /\
  (rc = 0%Z <-> forall i, i < monkCount -> is_Some (spawn i)) /\
  (rc = 0%Z -> forall i, i < monkCount -> threadId a !! i = spawn i).
Proof.
  unfold initialize_abbey, calloc. simpl.
  destruct (create_monks spawn monkCount 0 (replicate monkCount 0)) as [ids|] eqn:E; simpl.
  - assert (Hall : forall i, i < monkCount -> is_Some (spawn i)).
    { intros i Hi. destruct (spawn i) as [h|] eqn:Hs; [eauto|].
      rewrite (create_monks_fail spawn monkCount 0 i _ ltac:(lia) Hs) in E.
      discriminate. }
    destruct (create_monks_ok spawn monkCount 0 (replicate monkCount 0))
      as (ids' & E' & Hl & Hnew & _).
    { rewrite length_replicate. lia. }
    { intros j Hj. apply Hall. lia. }
    rewrite E in E'. injection E' as <-. rewrite length_replicate in Hl.
    unfold sized. simpl. rewrite length_replicate.
    repeat split; try reflexivity; try assumption; auto.
    + intros i Hi. apply lookup_replicate_2. exact Hi.
    + intros _ i Hi. apply Hnew. lia.
  - unfold sized. simpl. rewrite !length_replicate.
    repeat split; try reflexivity; auto; try discriminate.
    + intros i Hi. apply lookup_replicate_2. exact Hi.
    + intros Hall. destruct (create_monks_ok spawn monkCount 0 (replicate monkCount 0))
        as (ids' & E' & _).
      * rewrite length_replicate. lia.
      * intros j Hj. apply Hall. lia.
      * congruence.
Qed.

Lemma scan_none (ts : list Task) (st : Z) (i : nat) :
  scan ts st i = None -> forall k t, ts !! k = Some t -> state t <> st.
Proof.
  revert i. induction ts as [|t0 ts IH]; intros i H k t Hk; [discriminate|].
  simpl in H. destruct (state t0 =? st)%Z eqn:E; [discriminate|].
  destruct k as [|k]; simpl in Hk.
  - injection Hk as <-. apply Z.eqb_neq. exact E.
  - exact (IH _ H k t Hk).
Qed.

Lemma scan_least (ts : list Task) (st : Z) (i j : nat) :
  scan ts st i = Some j ->
  forall k t, k < j - i -> ts !! k = Some t -> state t <> st.
Proof.
  revert i. induction ts as [|t0 ts IH]; intros i H k t Hlt Hk; [discriminate|].
  simpl in H. destruct (state t0 =? st)%Z eqn:E.
  - injection H as <-. lia.
  - pose proof (AbbeyFacts.scan_bounds _ _ _ _ H) as Hb.
    destruct k as [|k]; simpl in Hk.
    + injection Hk as <-. apply Z.eqb_neq. exact E.
    + apply (IH _ H k t); [lia|exact Hk].
Qed.

Lemma scan_found (ts : list Task) (st : Z) (i k : nat) (t : Task) :
  ts !! k = Some t -> state t = st ->
  (forall k' t', k' < k -> ts !! k' = Some t' -> state t' <> st) ->
  scan ts st i = Some (i + k).
Proof.
  revert i k. induction ts as [|t0 ts IH]; intros i k Hk Hs Hbefore; [discriminate|].
  simpl. destruct k as [|k]; simpl in Hk.
  - injection Hk as ->. rewrite (proj2 (Z.eqb_eq _ _) Hs). f_equal. lia.
  - destruct (state t0 =? st)%Z eqn:E.
    + apply Z.eqb_eq in E. exfalso. apply (Hbefore 0 t0); [lia|reflexivity|exact E].
    + rewrite (IH (S i) k Hk Hs).
      * f_equal. lia.
      * intros k' t' Hlt Hk'. apply (Hbefore (S k') t'); [lia|exact Hk'].
Qed.

(** No slot the search may look at is in the state asked for. *)
Lemma first_in_state_none (a : Abbey) (st : Z) :
  first_in_state a st = None ->
  forall k t, dedicatedTaskBuffer a <= k < nofTasks a ->
              task a !! k = Some t -> state t <> st.
Proof.
  unfold first_in_state. intros H k t Hk Ht.
  apply (scan_none _ _ _ H (k - dedicatedTaskBuffer a) t).
  rewrite lookup_drop.
  replace (dedicatedTaskBuffer a + (k - dedicatedTaskBuffer a)) with k by lia.
  apply lookup_take_Some. split; [exact Ht|lia].
Qed.

Lemma first_in_state_least (a : Abbey) (st : Z) (i : nat) :
  first_in_state a st = Some i ->
  forall k t, dedicatedTaskBuffer a <= k < i ->
              task a !! k = Some t -> state t <> st.
Proof.
  unfold first_in_state. intros H k t Hk Ht.
  pose proof (AbbeyFacts.scan_bounds _ _ _ _ H) as Hb.
  rewrite length_drop, length_take in Hb.
  apply (scan_least _ _ _ _ H (k - dedicatedTaskBuffer a) t); [lia|].
  rewrite lookup_drop.
  replace (dedicatedTaskBuffer a + (k - dedicatedTaskBuffer a)) with k by lia.
  apply lookup_take_Some. split; [exact Ht|lia].
Qed.

Lemma first_in_state_found (a : Abbey) (st : Z) (i : nat) (t : Task) :
  dedicatedTaskBuffer a <= i < nofTasks a ->
  task a !! i = Some t -> state t = st ->
  (forall k t', dedicatedTaskBuffer a <= k < i ->
                task a !! k = Some t' -> state t' <> st) ->
  first_in_state a st = Some i.
Proof.
  intros Hi Ht Hs Hbefore. unfold first_in_state.
  rewrite (scan_found _ st (dedicatedTaskBuffer a) (i - dedicatedTaskBuffer a) t).
  - f_equal. lia.
  - rewrite lookup_drop.
    replace (dedicatedTaskBuffer a + (i - dedicatedTaskBuffer a)) with i by lia.
    apply lookup_take_Some. split; [exact Ht|lia].
  - exact Hs.
  - intros k' t' Hlt Hk'. rewrite lookup_drop in Hk'.
    apply lookup_take_Some in Hk' as [Hk' _].
    apply (Hbefore (dedicatedTaskBuffer a + k') t'); [lia|exact Hk'].
Qed.

(** The claim of a monk: it takes the lowest OPEN slot at or after
    [dedicatedTaskBuffer] to BUSY and touches nothing else, or, if no
    such slot is OPEN, it waits on [abbeyCond] with the scheduler
    unchanged. It never runs the growth routine. *)
Theorem monk_claim_takes_lowest_open (a : Abbey) :
  match monk_claim a with
  | Claimed i a' =>
      dedicatedTaskBuffer a <= i < nofTasks a /\
      state <$> task a !! i = Some TS_OPEN /\
      state <$> task a' !! i = Some TS_BUSY /\
      (forall k t, dedicatedTaskBuffer a <= k < i ->
                   task a !! k = Some t -> state t <> TS_OPEN) /\
      (forall j, j <> i -> task a' !! j = task a !! j) /\
      nofTasks a' = nofTasks a /\ threadId a' = threadId a /\
      dedicatedTaskBuffer a' = dedicatedTaskBuffer a
  | Waiting a' =>
      a' = with_abbeyMutex false a /\
      forall k t, dedicatedTaskBuffer a <= k < nofTasks a ->
                  task a !! k = Some t -> state t <> TS_OPEN
  | Unfinished _ => False
  end.
Proof.
  unfold monk_claim, find_task_and_change_state. simpl. unfold search_pass.
  destruct (first_in_state (with_abbeyMutex true a) TS_OPEN) as [i|] eqn:E; simpl.
  - change (first_in_state a TS_OPEN = Some i) in E.
    pose proof (first_in_state_least _ _ _ E) as Hleast.
    apply AbbeyFacts.first_in_state_spec in E as (Hi & t & Ht & Hs).
    split; [exact Hi|]. rewrite Ht. simpl. split; [congruence|].
    rewrite list_lookup_alter_eq, Ht. simpl. split; [reflexivity|].
    split; [exact Hleast|]. split; [|repeat split].
    intros j Hj. apply list_lookup_alter_ne. congruence.
  - change (first_in_state a TS_OPEN = None) in E.
    split; [destruct a; reflexivity|]. exact (first_in_state_none _ _ E).
Qed.

(** A slot the search must not return: it holds another state than the
    one looked for. It keeps its content through every pass, growth
    included. *)
Lemma search_loop_avoids (st newState : Z) (mayFail : bool)
    (env : list (realloc_reply Task)) (a a' : Abbey) (i j : nat) (t : Task) :
  task a !! i = Some t -> state t <> st -> i < nofTasks a ->
  search_loop st newState mayFail env a = Claimed j a' -> j <> i.
Proof.
  revert a. induction env as [|r env IH]; intros a Ht Hs Hi; simpl; [discriminate|].
  unfold search_pass. destruct (first_in_state a st) as [k|] eqn:E.
  - intros [= <- <-]. apply AbbeyFacts.first_in_state_spec in E as (_ & t' & Ht' & Hs').
    intros ->. congruence.
  - destruct (mayFail || (dedicatedTaskBuffer a =? 0)); [discriminate|].
    apply IH.
    + destruct r as [|fresh]; simpl; [exact Ht|].
      rewrite lookup_app_l.
      * rewrite lookup_take_lt by lia. exact Ht.
      * rewrite length_take. apply lookup_lt_Some in Ht. lia.
    + exact Hs.
    + destruct r as [|fresh]; simpl; lia.
Qed.

Lemma search_loop_claimed_bound (st newState : Z) (mayFail : bool)
    (env : list (realloc_reply Task)) (a a' : Abbey) (i : nat) :
  search_loop st newState mayFail env a = Claimed i a' -> i < nofTasks a'.
Proof.
  revert a. induction env as [|r env IH]; intros a; simpl; [discriminate|].
  unfold search_pass. destruct (first_in_state a st) as [k|] eqn:E.
  - intros [= <- <-]. apply AbbeyFacts.first_in_state_spec in E as (Hk & _).
    simpl. lia.
  - destruct (mayFail || (dedicatedTaskBuffer a =? 0)); [discriminate|]. apply IH.
Qed.

(** Two claims in a row never return the same slot: the first leaves its
    slot in the new state, and the second, whoever makes it and whatever
    the allocator answers in between, only returns a slot it found in the
    old one. *)
Theorem claimed_slots_differ (st newState : Z) (mayFail1 mayFail2 : bool)
    (env1 env2 : list (realloc_reply Task)) (a a1 a2 : Abbey) (i j : nat) :
  st <> newState ->
  find_task_and_change_state st newState mayFail1 env1 a = Claimed i a1 ->
  find_task_and_change_state st newState mayFail2 env2 a1 = Claimed j a2 ->
  i <> j.
Proof.
  unfold find_task_and_change_state. intros Hne H1 H2.
  pose proof (search_loop_claimed_bound _ _ _ _ _ _ _ H1) as Hi.
  apply AbbeyFacts.search_loop_claimed in H1 as (t & Ht & Hs).
  intros ->.
  apply (search_loop_avoids _ _ _ _ _ _ j j t) in H2; [congruence|exact Ht| |exact Hi].
  congruence.
Qed.

Lemma claimed_slots_differ_witness :
  exists a1 a2,
    find_task_and_change_state TS_READY TS_CREATING false [zeroed] booted4
      = Claimed 2 a1 /\
    find_task_and_change_state TS_READY TS_CREATING false [zeroed] a1
      = Claimed 3 a2 /\ 2 <> 3.
Proof.
  eexists _, _. split; [reflexivity|]. split; [reflexivity|].
  exact (claimed_slots_differ TS_READY TS_CREATING false false [zeroed] [zeroed]
           booted4 _ _ 2 3 ltac:(discriminate) eq_refl eq_refl).
Defined.

Lemma search_loop_sized (st newState : Z) (mayFail : bool)
    (env : list (realloc_reply Task)) (a : Abbey) :
  sized a ->
  (dedicatedTaskBuffer a = 0 \/ dedicatedTaskBuffer a = 2) ->
  match search_loop st newState mayFail env a with
  | Claimed _ a' | Waiting a' | Unfinished a' =>
      sized a' /\ (dedicatedTaskBuffer a' = 0 \/ dedicatedTaskBuffer a' = 2)
  end.
Proof.
  revert a. induction env as [|r env IH]; intros a Hs Hd; simpl; [auto|].
  unfold search_pass. destruct (first_in_state a st) as [k|] eqn:E.
  - unfold sized in *. simpl. rewrite length_alter. auto.
  - destruct (mayFail || (dedicatedTaskBuffer a =? 0)); [auto|].
    apply IH.
    + destruct r as [|fresh]; unfold sized in *; simpl; [exact Hs|].
      rewrite length_app, length_take, length_map, length_seq. lia.
    + destruct r as [|fresh]; simpl; auto.
Qed.

(** The count the scheduler keeps stays the length of the task array,
    and [dedicatedTaskBuffer] stays 0 or 2, through every dispatch:
    whether it returns, is queued or is still looping, and whatever
    [realloc] answers. With it the slot search never reads outside the
    array. *)
Theorem dispatch_keeps_sized
    (fn : funptr) (ctx : ptr) (taskDesc : string)
    (env : list (realloc_reply Task)) (a : Abbey) :
  sized a ->
  (dedicatedTaskBuffer a = 0 \/ dedicatedTaskBuffer a = 2) ->
  sized (abbey_of (dispatch_described_task fn ctx taskDesc env a)) /\
  (dedicatedTaskBuffer (abbey_of (dispatch_described_task fn ctx taskDesc env a)) = 0 \/
   dedicatedTaskBuffer (abbey_of (dispatch_described_task fn ctx taskDesc env a)) = 2).
Proof.
  intros Hs Hd. unfold dispatch_described_task, find_task_and_change_state.
  pose proof (search_loop_sized TS_READY TS_CREATING false env
                (with_abbeyMutex true a) Hs Hd) as H.
  destruct (search_loop TS_READY TS_CREATING false env (with_abbeyMutex true a))
    as [i a1|a1|a1]; simpl; try exact H.
  destruct H as [H1 H2]. unfold sized in *. simpl.
  rewrite !length_alter. auto.
Qed.

Lemma dispatch_keeps_sized_witness :
  sized two_out /\ dedicatedTaskBuffer two_out = 0.
Proof.
  destruct (dispatch_keeps_sized (fn_app 2) 0 "two" [ReallocNull; ReallocNull] one_out)
    as [H _]; [reflexivity | right; reflexivity |].
  split; [exact H | reflexivity].
Defined.

(** When every monk is busy at the end of a task and [realloc] fails,
    [addMonk] returns before [dedicatedTaskBuffer = 2]: the monk goes
    back to its loop with the pool as it was and the reservation switched
    off, so the next dispatch starts its scan at slot 0 and takes it if it
    is READY. *)
Theorem monk_finish_failed_growth_opens_reserve
    (taskId : nat) (spawn : option pthread_t) (a : Abbey) :
  (Z.of_nat (nofMonks a) <= amountOfMonksBusy a)%Z ->
  exists a',
    monk_finish taskId ReallocNull spawn a = MonkIdle a' /\
    dedicatedTaskBuffer a' = 0 /\
    nofMonks a' = nofMonks a /\ threadId a' = threadId a /\
    amountOfMonksBusy a' = (amountOfMonksBusy a - 1)%Z /\
    task a' = alter (set_state TS_READY) taskId (task a) /\
    (forall t r env, 0 < nofTasks a -> task a' !! 0 = Some t -> state t = TS_READY ->
       exists a'',
         find_task_and_change_state TS_READY TS_CREATING false (r :: env) a'
           = Claimed 0 a'').
Proof.
  intros Hbusy. unfold monk_finish. simpl.
  destruct (Z.of_nat (nofMonks a) <=? amountOfMonksBusy a)%Z eqn:E; [|lia].
  unfold addMonk. simpl. eexists. split; [reflexivity|]. simpl.
  repeat split.
  intros t r env Hn Ht Hs.
  unfold find_task_and_change_state. simpl. unfold search_pass.
  rewrite (first_in_state_found _ TS_READY 0 t); simpl; eauto; try lia.
Qed.

Lemma monk_finish_failed_growth_opens_reserve_witness :
  exists a',
    monk_finish 2 ReallocNull None
      (with_amountOfMonksBusy 1 (with_task (alter (set_state TS_BUSY) 2 (task one_out)) one_out))
      = MonkIdle a' /\
    dedicatedTaskBuffer a' = 0.
Proof.
  destruct (monk_finish_failed_growth_opens_reserve 2 None
              (with_amountOfMonksBusy 1
                 (with_task (alter (set_state TS_BUSY) 2 (task one_out)) one_out)))
    as (a' & H1 & H2 & _); [simpl; lia|].
  exists a'. split; [exact H1 | exact H2].
Defined.

(** Growth that works: the buffer is saturated, two slots are reserved,
    and [realloc] returns a block whose first new slot reads READY. The
    dispatch then grows the array by [taskBufferContent] slots, claims the
    first new slot, fills it and returns 0. *)
Theorem dispatch_grows_into_fresh_slot
    (fn : funptr) (ctx : ptr) (taskDesc : string) (fresh : nat -> Task)
    (r : realloc_reply Task) (env : list (realloc_reply Task)) (a : Abbey) :
  sized a -> dedicatedTaskBuffer a = 2 -> 2 <= nofTasks a ->
  0 < taskBufferContent a ->
  first_in_state a TS_READY = None ->
  state (fresh (nofTasks a)) = TS_READY ->
  exists a',
    dispatch_described_task fn ctx taskDesc (ReallocOk fresh :: r :: env) a
      = Returned 0%Z a' /\
    nofTasks a' = nofTasks a + taskBufferContent a /\
    sized a' /\ dedicatedTaskBuffer a' = 2 /\
    task a' !! nofTasks a = Some (mkTask TS_OPEN fn ctx (strncpy taskDesc 63)) /\
    (forall j, j < nofTasks a -> task a' !! j = task a !! j).
Proof.
  intros Hs Hd Hn Hamount Hnone Hfresh.
  set (grown := with_abbeyMutex false
                  (increaseTaskBuffer (taskBufferContent a) (ReallocOk fresh)
                     (with_dedicatedTaskBuffer 0 (with_abbeyMutex true a)))).
  assert (Hnew : task grown !! nofTasks a = Some (fresh (nofTasks a))).
  { subst grown. simpl. apply AbbeyFacts.realloc_fresh; unfold sized in Hs; lia. }
  assert (Hold : forall j, j < nofTasks a -> task grown !! j = task a !! j).
  { intros j Hj. subst grown. simpl. apply AbbeyFacts.realloc_keeps; unfold sized in Hs; lia. }
  assert (Hfound : first_in_state grown TS_READY = Some (nofTasks a)).
  { apply (first_in_state_found grown TS_READY (nofTasks a) (fresh (nofTasks a))).
    - subst grown. simpl. lia.
    - exact Hnew.
    - exact Hfresh.
    - intros k t' Hk Ht'. subst grown. simpl in Hk.
      apply (first_in_state_none a TS_READY Hnone k t'); [lia|].
      rewrite <- Hold by lia. exact Ht'. }
  unfold dispatch_described_task, find_task_and_change_state. simpl.
  unfold search_pass at 1.
  change (first_in_state (with_abbeyMutex true a) TS_READY) with (first_in_state a TS_READY).
  rewrite Hnone. simpl. rewrite Hd. simpl.
  fold grown. unfold search_pass. rewrite Hfound. simpl.
  eexists. split; [reflexivity|]. simpl.
  split; [reflexivity|]. split.
  { unfold sized. simpl. rewrite !length_alter, length_app, length_take, length_map, length_seq.
    unfold sized in Hs. lia. }
  split; [reflexivity|]. split.
  - rewrite !list_lookup_alter_eq.
    change (take (nofTasks a + taskBufferContent a) (task a) ++
            map fresh (seq (length (task a)) (nofTasks a + taskBufferContent a - length (task a))))
      with (task grown).
    rewrite Hnew. reflexivity.
  - intros j Hj. rewrite !list_lookup_alter_ne by lia.
    change (take (nofTasks a + taskBufferContent a) (task a) ++
            map fresh (seq (length (task a)) (nofTasks a + taskBufferContent a - length (task a))))
      with (task grown).
    apply Hold. exact Hj.
Qed.

Lemma dispatch_grows_into_fresh_slot_witness :
  exists a',
    dispatch_described_task (fn_app 2) 0 "two" [zeroed; zeroed] one_out = Returned 0%Z a' /\
    nofTasks a' = 7 /\
    task a' !! 3 = Some (mkTask TS_OPEN (fn_app 2) 0 "two").
Proof.
  destruct (dispatch_grows_into_fresh_slot (fn_app 2) 0 "two" (fun _ => zero_task)
              zeroed [] one_out)
    as (a' & H1 & H2 & _ & _ & H3 & _);
    [reflexivity | reflexivity | simpl; lia | simpl; lia | reflexivity | reflexivity |].
  exists a'. split; [exact H1|]. split; [exact H2 | exact H3].
Defined.

End MonkFacts.

(** ** The bit macros *)

Module BitsFacts.
Import Ptreaty Bits.

Lemma uint8_testbit (z n : Z) :
  (0 <= n)%Z -> Z.testbit (uint8 z) n = (n <? 8)%Z && Z.testbit z n.
Proof.
  intros Hn. unfold uint8. change 256%Z with (2 ^ 8)%Z.
  apply Z.testbit_mod_pow2. lia.
Qed.

Lemma uint8_small (z : Z) : (0 <= z < 256)%Z -> uint8 z = z.
Proof. intros H. unfold uint8. apply Z.mod_small. exact H. Qed.

Lemma bit_testbit (bit n : Z) :
  (0 <= bit)%Z -> Z.testbit (Z.shiftl 1 bit) n = (bit =? n)%Z.
Proof. intros H. rewrite Z.shiftl_1_l. apply Z.pow2_bits_eqb. exact H. Qed.

Lemma raised_iff_testbit (x bit : Z) :
  (0 <= bit)%Z -> RAISED x bit <> 0%Z <-> Z.testbit x bit = true.
Proof.
  intros Hb. unfold RAISED. split.
  - intros H. destruct (Z.testbit x bit) eqn:E; [reflexivity|].
    exfalso. apply H. apply Z.bits_inj'. intros n Hn.
    rewrite Z.land_spec, bit_testbit, Z.bits_0 by lia.
    destruct (bit =? n)%Z eqn:En; [|apply andb_false_r].
    apply Z.eqb_eq in En. subst n. rewrite E. reflexivity.
  - intros E H.
    assert (Z.testbit (Z.land x (Z.shiftl 1 bit)) bit = true) as Hbit.
    { rewrite Z.land_spec, bit_testbit, E, Z.eqb_refl by lia. reflexivity. }
    rewrite H, Z.bits_0 in Hbit. discriminate.
Qed.

(** The macros on an eight-bit variable. For a bit below 8: a raised bit
    reads as raised and a cleared one as cleared, the other bits keep
    their values, and toggling twice restores the variable. For a bit
    from 8 to 30, the assignment drops it: [RAISE], [CLEAR] and [TOGGLE]
    leave the variable as it is and [RAISED] stays 0. *)
Theorem bit_macros_on_uint8 (x bit : Z) :
  (0 <= x < 256)%Z -> (0 <= bit < 31)%Z ->
  ((bit < 8)%Z ->
     RAISED (RAISE x bit) bit <> 0%Z /\ CLEARED (RAISE x bit) bit = 0%Z /\
     RAISED (CLEAR x bit) bit = 0%Z /\ CLEARED (CLEAR x bit) bit = 1%Z /\
     TOGGLE (TOGGLE x bit) bit = x /\
     (forall b, (0 <= b)%Z -> b <> bit ->
        Z.testbit (RAISE x bit) b = Z.testbit x b /\
        Z.testbit (CLEAR x bit) b = Z.testbit x b)) /\
  ((8 <= bit)%Z ->
     RAISE x bit = x /\ CLEAR x bit = x /\ TOGGLE x bit = x /\
     RAISED (RAISE x bit) bit = 0%Z).
Proof.
  intros Hx Hb.
  assert (Hhigh : forall n, (0 <= n)%Z -> (n <? 8)%Z = false -> Z.testbit x n = false).
  { intros n Hn Hlt. rewrite <- (uint8_small x Hx), uint8_testbit, Hlt by lia. reflexivity. }
  split.
  - intros Hlt.
    assert (Hset : Z.testbit (RAISE x bit) bit = true).
    { unfold RAISE. rewrite uint8_testbit, Z.lor_spec, bit_testbit, Z.eqb_refl by lia.
      rewrite orb_true_r, andb_true_r. apply Z.ltb_lt. exact Hlt. }
    assert (Hclr : Z.testbit (CLEAR x bit) bit = false).
    { unfold CLEAR. rewrite uint8_testbit, Z.land_spec, Z.lnot_spec, bit_testbit, Z.eqb_refl by lia.
      simpl. rewrite !andb_false_r. reflexivity. }
    assert (Hraised : RAISED (RAISE x bit) bit <> 0%Z)
      by (apply raised_iff_testbit; [lia|exact Hset]).
    assert (Hcleared : RAISED (CLEAR x bit) bit = 0%Z).
    { destruct (Z.eq_dec (RAISED (CLEAR x bit) bit) 0%Z) as [E|E]; [exact E|].
      apply raised_iff_testbit in E; [congruence|lia]. }
    split; [exact Hraised|]. split.
    { unfold CLEARED. fold (RAISED (RAISE x bit) bit).
      destruct (RAISED (RAISE x bit) bit =? 0)%Z eqn:E; [|reflexivity].
      apply Z.eqb_eq in E. contradiction. }
    split; [exact Hcleared|]. split.
    { unfold CLEARED. fold (RAISED (CLEAR x bit) bit). rewrite Hcleared. reflexivity. }
    split.
    { apply Z.bits_inj'. intros n Hn. unfold TOGGLE.
      rewrite uint8_testbit, Z.lxor_spec, uint8_testbit, Z.lxor_spec by lia.
      destruct (n <? 8)%Z eqn:E; simpl.
      - destruct (Z.testbit x n), (Z.testbit (Z.shiftl 1 bit) n); reflexivity.
      - symmetry. apply Hhigh; assumption. }
    intros b Hb0 Hne. unfold RAISE, CLEAR.
    rewrite !uint8_testbit, Z.lor_spec, Z.land_spec, Z.lnot_spec, bit_testbit by lia.
    assert ((bit =? b)%Z = false) as -> by (apply Z.eqb_neq; congruence).
    simpl. rewrite orb_false_r, andb_true_r.
    destruct (b <? 8)%Z eqn:E; simpl; [split; reflexivity|].
    rewrite Hhigh by assumption. split; reflexivity.
  - intros Hge.
    assert (Hoff : forall n, (0 <= n)%Z -> (n <? 8)%Z = true ->
                             Z.testbit (Z.shiftl 1 bit) n = false).
    { intros n Hn Hlt. rewrite bit_testbit by lia. apply Z.ltb_lt in Hlt.
      apply Z.eqb_neq. lia. }
    assert (Hraise : RAISE x bit = x).
    { apply Z.bits_inj'. intros n Hn. unfold RAISE.
      rewrite uint8_testbit, Z.lor_spec by lia.
      destruct (n <? 8)%Z eqn:E; simpl.
      - rewrite Hoff by assumption. apply orb_false_r.
      - symmetry. apply Hhigh; assumption. }
    split; [exact Hraise|]. split.
    { apply Z.bits_inj'. intros n Hn. unfold CLEAR.
      rewrite uint8_testbit, Z.land_spec, Z.lnot_spec by lia.
      destruct (n <? 8)%Z eqn:E; simpl.
      - rewrite Hoff by assumption. apply andb_true_r.
      - symmetry. apply Hhigh; assumption. }
    split.
    { apply Z.bits_inj'. intros n Hn. unfold TOGGLE.
      rewrite uint8_testbit, Z.lxor_spec by lia.
      destruct (n <? 8)%Z eqn:E; simpl.
      - rewrite Hoff by assumption. apply xorb_false_r.
      - symmetry. apply Hhigh; assumption. }
    rewrite Hraise.
    destruct (Z.eq_dec (RAISED x bit) 0%Z) as [E|E]; [exact E|].
    apply raised_iff_testbit in E; [|lia].
    rewrite Hhigh in E; [discriminate|lia|]. apply Z.ltb_ge. exact Hge.
Qed.

Lemma bit_macros_on_uint8_witness :
  RAISED (RAISE 16 2) 2 <> 0%Z /\ TOGGLE (TOGGLE 16 2) 2 = 16%Z.
Proof.
  destruct (bit_macros_on_uint8 16 2) as [H _]; [lia | lia |].
  destruct (H ltac:(lia)) as (H1 & _ & _ & _ & H2 & _).
  split; [exact H1 | exact H2].
Defined.

End BitsFacts.

(** ** The other handshakes *)

Module HandshakeFacts.
Import Pthread Ptreaty Bits Handshake.

(** The handshake in the order it is meant for. A waiter that has hoisted
    the flag, holds the baton and finds the counter at 0 goes to sleep in
    [ptreaty_wait], the baton released. A wake-up without a signal sends
    it back to sleep with nothing changed. A [ptreaty_make_m_run] by
    another thread now raises the counter, and the woken waiter lowers it
    again and returns holding the baton. *)
Theorem wait_sleeps_until_signalled (t w : tid) (st : SyncThreads) :
  request st = Some w -> baton st = Some w -> predicate st = 0%Z ->
  ptreaty_wait w st = Blocks (with_baton None st) /\
  ptreaty_wait_woken w (with_baton None st) = Blocks (with_baton None st) /\
  ptreaty_make_m_run t (with_baton None st)
    = Done (with_predicate 1 (with_baton None st)) /\
  ptreaty_wait_woken w (with_predicate 1 (with_baton None st)) = Done st.
Proof.
  destruct st as [rq bt p f]. simpl. intros -> -> ->. repeat split.
Qed.

Lemma wait_sleeps_until_signalled_witness :
  ptreaty_wait_woken 0 (mkSync (Some 0) None 1%Z 0%Z) = Done (mkSync (Some 0) (Some 0) 0%Z 0%Z).
Proof.
  destruct (wait_sleeps_until_signalled 1 0 (mkSync (Some 0) (Some 0) 0%Z 0%Z)
              eq_refl eq_refl eq_refl) as (_ & _ & _ & H).
  exact H.
Defined.

(** [ptreaty_make_m_run_nx] does remember a signal sent with the flag not
    hoisted: it raises the counter, and the next [ptreaty_wait] returns at
    once. It keeps the request mutex it took for the test, so from then
    on the flag reads hoisted and the next [ptreaty_make_m_run_nx] blocks
    on [ack] with the counter raised once more. *)
Theorem run_nx_remembers_early_signal (t t' w : tid) (st : SyncThreads) :
  request st = None -> baton st = None -> (0 <= predicate st < 254)%Z ->
  ptreaty_make_m_run_nx t st
    = Done (with_predicate (predicate st + 1) (with_request (Some t) st)) /\
  ptreaty_wait w (with_predicate (predicate st + 1) (with_request (Some t) st))
    = Done (with_request (Some t) st) /\
  ptreaty_make_m_run_nx t' (with_predicate (predicate st + 1) (with_request (Some t) st))
    = Blocks (with_predicate (predicate st + 2) (with_request (Some t) st)).
Proof.
  destruct st as [rq bt p f]. simpl. intros -> -> Hp.
  unfold ptreaty_make_m_run_nx, ptreaty_make_m_just_run, ptreaty_make_m_run_once,
    ptreaty_wait, uint8. simpl.
  rewrite (Z.mod_small (p + 1)) by lia.
  replace (p + 1 - 1)%Z with p by lia. rewrite (Z.mod_small p) by lia.
  replace (p + 1 + 1)%Z with (p + 2)%Z by lia. rewrite (Z.mod_small (p + 2)) by lia.
  destruct (p + 1 =? 0)%Z eqn:E1; [apply Z.eqb_eq in E1; lia|].
  destruct (p + 2 =? 0)%Z eqn:E2; [apply Z.eqb_eq in E2; lia|].
  repeat split.
Qed.

Lemma run_nx_remembers_early_signal_witness :
  ptreaty_make_m_run_nx 1 ptreaty_init = Done (mkSync (Some 1) None 1%Z 0%Z) /\
  ptreaty_wait 0 (mkSync (Some 1) None 1%Z 0%Z) = Done (mkSync (Some 1) None 0%Z 0%Z).
Proof.
  destruct (run_nx_remembers_early_signal 1 2 0 ptreaty_init eq_refl eq_refl)
    as (H1 & H2 & _); [simpl; lia|].
  split; [exact H1 | exact H2].
Defined.

(** The rendezvous of [ptreaty_make_m_run_once]. With the waiter asleep
    the signaller raises the counter and sleeps on [ack]. The woken
    waiter takes the baton and lowers the counter; its [ptreaty_has_run]
    wakes the signaller, which cannot return while the waiter holds the
    baton. Once the waiter has given the baton back the signaller returns
    and the channel is as before the signal, the baton free. *)
Theorem run_once_rendezvous (t w : tid) (st : SyncThreads) :
  baton st = None -> predicate st = 0%Z ->
  ptreaty_make_m_run_once t st = Blocks (with_predicate 1 st) /\
  ptreaty_wait_woken w (with_predicate 1 st) = Done (with_baton (Some w) st) /\
  ptreaty_has_run (with_baton (Some w) st) = Done (with_baton (Some w) st) /\
  ptreaty_make_m_run_once_woken t (with_baton (Some w) st)
    = Blocks (with_baton (Some w) st) /\
  ptreaty_return_baton (with_baton (Some w) st) = Done st /\
  ptreaty_make_m_run_once_woken t st = Done st.
Proof.
  destruct st as [rq bt p f]. simpl. intros -> ->. repeat split.
Qed.

Lemma run_once_rendezvous_witness :
  ptreaty_make_m_run_once 1 (mkSync (Some 0) None 0%Z 0%Z)
    = Blocks (mkSync (Some 0) None 1%Z 0%Z).
Proof.
  destruct (run_once_rendezvous 1 0 (mkSync (Some 0) None 0%Z 0%Z) eq_refl eq_refl)
    as (H & _).
  exact H.
Defined.

(** The stop signal is remembered whether or not the flag is hoisted:
    [ptreaty_make_m_stop] raises bit 1 of [flags] and the counter, the
    next [ptreaty_wait] returns at once, and [ptreaty_stop] then returns
    1 and releases the baton. On a channel whose bit 1 is clear
    [ptreaty_stop] returns 0 and changes nothing. *)
Theorem stop_signal_is_remembered (t w : tid) (st : SyncThreads) :
  baton st = None -> (0 <= predicate st < 255)%Z ->
  exists st1 st2,
    ptreaty_make_m_stop t st = Done st1 /\
    request st1 = request st /\ predicate st1 = (predicate st + 1)%Z /\
    ptreaty_wait w st1 = Done st2 /\
    predicate st2 = predicate st /\
    ptreaty_stop st2 = (1%Z, st2) /\
    (Z.testbit (flags st) 1 = false -> ptreaty_stop st = (0%Z, st)).
Proof.
  destruct st as [rq bt p f]. cbn [baton predicate flags request]. intros -> Hp.
  assert (H1 : uint8 (p + 1) = (p + 1)%Z) by (apply BitsFacts.uint8_small; lia).
  assert (H2 : uint8 (p + 1 - 1) = p).
  { replace (p + 1 - 1)%Z with p by lia. apply BitsFacts.uint8_small. lia. }
  exists (mkSync rq None (p + 1) (uint8 (Z.lor f (Z.shiftl 1 1)))),
         (mkSync rq None p (uint8 (Z.lor f (Z.shiftl 1 1)))).
  unfold ptreaty_make_m_stop, ptreaty_wait. simpl. rewrite H1.
  split; [reflexivity|]. split; [reflexivity|]. split; [reflexivity|].
  destruct (p + 1 =? 0)%Z eqn:E; [apply Z.eqb_eq in E; lia|]. rewrite H2.
  split; [reflexivity|]. split; [reflexivity|]. split.
  - unfold ptreaty_stop. simpl.
    destruct (RAISED (uint8 (Z.lor f (Z.shiftl 1 1))) 1 =? 0)%Z eqn:G; [|reflexivity].
    apply Z.eqb_eq in G. exfalso. revert G.
    apply BitsFacts.raised_iff_testbit; [lia|].
    rewrite BitsFacts.uint8_testbit, Z.lor_spec, BitsFacts.bit_testbit by lia.
    simpl. apply orb_true_r.
  - intros Hclear. unfold ptreaty_stop. cbn [flags].
    destruct (RAISED f 1 =? 0)%Z eqn:G; [reflexivity|].
    apply Z.eqb_neq in G.
    apply (proj1 (BitsFacts.raised_iff_testbit f 1 ltac:(lia))) in G.
    change (Z.testbit f 1 = false) in Hclear. congruence.
Qed.

Lemma stop_signal_is_remembered_witness :
  ptreaty_make_m_stop 1 ptreaty_init = Done (mkSync None None 1%Z 2%Z) /\
  ptreaty_stop (mkSync None None 0%Z 2%Z) = (1%Z, mkSync None None 0%Z 2%Z).
Proof.
  destruct (stop_signal_is_remembered 1 0 ptreaty_init eq_refl)
    as (st1 & st2 & H1 & _ & _ & H2 & _ & H3 & _); [simpl; lia|].
  injection H1 as <-. injection H2 as <-.
  split; [reflexivity | exact H3].
Defined.

(** The counter is eight bits wide and wraps: [n] signals by
    [ptreaty_make_m_just_run] leave it at the sum modulo 256, so after
    256 of them with no wait in between the channel is as if none had
    been sent. *)
Theorem just_run_counter_wraps (n : nat) (st : SyncThreads) :
  (0 <= predicate st < 256)%Z ->
  just_run_times n st
    = Done (with_predicate ((predicate st + Z.of_nat n) mod 256) st) /\
  just_run_times 256 st = Done st.
Proof.
  intros Hp.
  assert (H : forall n st, (0 <= predicate st < 256)%Z ->
            just_run_times n st
            = Done (with_predicate ((predicate st + Z.of_nat n) mod 256) st)).
  { clear. induction n as [|n IH]; intros st Hp.
    - simpl. rewrite Z.add_0_r, Z.mod_small by lia. destruct st; reflexivity.
    - cbn [just_run_times ptreaty_make_m_just_run and_then].
      rewrite IH.
      + destruct st as [rq bt p f]. simpl. unfold uint8.
        rewrite Z.add_mod_idemp_l by lia.
        replace (p + 1 + Z.of_nat n)%Z with (p + Z.of_nat (S n))%Z by lia. reflexivity.
      + simpl. unfold uint8. apply Z.mod_pos_bound. lia. }
  split; [apply H; exact Hp|].
  rewrite H by exact Hp. destruct st as [rq bt p f]. simpl in *.
  change (Z.of_nat 256) with 256%Z.
  rewrite <- (Z.mul_1_l 256) at 1. rewrite Z.mod_add, Z.mod_small by lia.
  reflexivity.
Qed.

Lemma just_run_counter_wraps_witness :
  just_run_times 256 ptreaty_init = Done ptreaty_init.
Proof.
  destruct (just_run_counter_wraps 0 ptreaty_init) as [_ H]; [simpl; lia|].
  exact H.
Defined.

(** [ptreaty_make_m_continue] keeps nothing: whenever it returns, the
    channel is exactly as it was, hoisted or not, so a
    [ptreaty_wait_to_continue] that comes after it still sleeps. *)
Theorem continue_signal_leaves_no_trace (t w : tid) (st st' : SyncThreads) :
  ptreaty_make_m_continue t st = Done st' ->
  st' = st /\
  ptreaty_wait_to_continue w st' = Blocks (with_baton None st).
Proof.
  destruct st as [[o|] [b|] p f]; unfold ptreaty_make_m_continue; simpl;
    intros H; inversion H; subst; split; reflexivity.
Qed.

Lemma continue_signal_leaves_no_trace_witness :
  ptreaty_wait_to_continue 0 ptreaty_init = Blocks ptreaty_init.
Proof.
  destruct (continue_signal_leaves_no_trace 1 0 ptreaty_init ptreaty_init eq_refl)
    as [_ H].
  exact H.
Defined.

End HandshakeFacts.

(** ** The names of the threads *)

Module ThreadNamesFacts.
Import Abbey ThreadNames.

Lemma lookup_thread_app (cells : gmap nat pthread_t) (h : pthread_t)
    (l : list ThreadName) (n : ThreadName) :
  (forall m, m ∈ l -> exists h', cells !! thread m = Some h' /\ h' <> h) ->
  lookup_thread cells h (l ++ [n]) = lookup_thread cells h [n].
Proof.
  induction l as [|m l IH]; intros Hl; [reflexivity|].
  simpl. destruct (Hl m ltac:(apply list_elem_of_here)) as (h' & -> & Hne).
  destruct (decide (h' = h)); [contradiction|].
  apply IH. intros m' Hm'. apply Hl. apply list_elem_of_further. exact Hm'.
Qed.

Lemma lookup_thread_first (cells : gmap nat pthread_t) (h : pthread_t)
    (l l' : list ThreadName) (m : ThreadName) :
  m ∈ l -> cells !! thread m = Some h ->
  (forall m', m' ∈ l -> is_Some (cells !! thread m')) ->
  lookup_thread cells h (l ++ l') = lookup_thread cells h l.
Proof.
  induction l as [|m0 l IH]; intros Hm Hc Hall; [inversion Hm|].
  simpl. destruct (Hall m0 ltac:(apply list_elem_of_here)) as [h0 Hh0]. rewrite Hh0.
  destruct (decide (h0 = h)) as [_|Hne]; [reflexivity|].
  apply elem_of_cons in Hm as [->|Hm]; [congruence|].
  apply IH; [exact Hm|exact Hc|].
  intros m' Hm'. apply Hall. apply list_elem_of_further. exact Hm'.
Qed.

(** Thread names: the first registration wins. A thread whose handle
    matches no entry gets the name it is registered with; a lookup on a
    list without a match, the empty list included, gives "Unknown
    thread"; and once some entry matches a handle, registering further
    names, for the same thread or another, does not change what the
    lookup returns. *)
Theorem thread_name_first_registration_wins
    (cells : gmap nat pthread_t) (l : list ThreadName)
    (p q : nat) (h : pthread_t) (name : string) :
  String.length name < 64 ->
  cells !! p = Some h -> cells !! q = Some h ->
  exists l',
    ptreaty_add_thread p name l = Some l' /\
    ((forall m, m ∈ l -> exists h', cells !! thread m = Some h' /\ h' <> h) ->
       ptreaty_get_thread_name cells q l = Some "Unknown thread"%string /\
       ptreaty_get_thread_name cells q l' = Some name) /\
    (forall m, m ∈ l -> cells !! thread m = Some h ->
       (forall m', m' ∈ l -> is_Some (cells !! thread m')) ->
       ptreaty_get_thread_name cells q l' = ptreaty_get_thread_name cells q l).
Proof.
  intros Hlen Hp Hq. unfold ptreaty_add_thread.
  destruct (decide (String.length name < 64)) as [_|]; [|contradiction].
  eexists. split; [reflexivity|]. split.
  - intros Hnone. split.
    + unfold ptreaty_get_thread_name. destruct l as [|m l]; [reflexivity|].
      rewrite Hq. rewrite <- (app_nil_r (m :: l)) at 1.
      clear -Hnone. induction (m :: l) as [|m0 l0 IH]; [reflexivity|].
      simpl. destruct (Hnone m0 ltac:(apply list_elem_of_here)) as (h' & -> & Hne).
      destruct (decide (h' = h)); [contradiction|].
      apply IH. intros m' Hm'. apply Hnone. apply list_elem_of_further. exact Hm'.
    + unfold ptreaty_get_thread_name.
      destruct (l ++ [mkThreadName p name]) as [|m0 l0] eqn:E;
        [destruct l; discriminate|].
      rewrite <- E, Hq, lookup_thread_app by exact Hnone.
      simpl. rewrite Hp. destruct (decide (h = h)); [reflexivity|contradiction].
  - intros m Hm Hc Hall. unfold ptreaty_get_thread_name.
    destruct l as [|m0 l]; [inversion Hm|]. simpl app. cbv iota. rewrite Hq.
    change (m0 :: l ++ [mkThreadName p name]) with ((m0 :: l) ++ [mkThreadName p name]).
    apply (lookup_thread_first cells h (m0 :: l) _ m Hm Hc Hall).
Qed.

Lemma thread_name_first_registration_wins_witness :
  ptreaty_get_thread_name {[ 10 := 77 ]} 10 [mkThreadName 10 "Main"] = Some "Main"%string.
Proof.
  destruct (thread_name_first_registration_wins {[ 10 := 77 ]} [] 10 10 77 "Main")
    as (l' & H1 & H2 & _); [simpl; lia | reflexivity | reflexivity |].
  injection H1 as <-.
  destruct H2 as [_ H2]; [|exact H2].
  intros m Hm. inversion Hm.
Defined.

End ThreadNamesFacts.

(** ** The registry, continued *)

Module RegistryFacts.
Import Libc Abbey Log Poseta PosetaTasks.

Lemma lookup_name_None (n : funptr) (l : list Condition) :
  lookup_name n l = None <-> n ∉ name <$> l.
Proof.
  induction l as [|c l IH]; simpl.
  - split; [intros _; apply not_elem_of_nil | reflexivity].
  - destruct (decide (name c = n)) as [E|E].
    + split; [discriminate|]. intros H. exfalso. apply H. rewrite E. apply list_elem_of_here.
    + rewrite IH. rewrite not_elem_of_cons. split; [intros H; split; [congruence|exact H] | tauto].
Qed.

Lemma lookup_name_head (c : Condition) (l : list Condition) :
  lookup_name (name c) (c :: l) = Some c.
Proof. simpl. destruct (decide (name c = name c)); [reflexivity|contradiction]. Qed.

Lemma addCondition_new (c : Condition) (p : Poseta) :
  lookup_name (name c) (cond p) = None ->
  cond (addCondition c p) = c :: cond p /\
  ptasks (addCondition c p) = ptasks p /\
  channels (addCondition c p) = channels p /\
  abbey (addCondition c p) = abbey p.
Proof.
  intros H. unfold addCondition, getCondition.
  destruct (cond p) as [|d l] eqn:E; [repeat split|].
  rewrite H. repeat split.
Qed.

Lemma addCondition_cases (c : Condition) (p : Poseta) :
  cond (addCondition c p) = cond p \/
  (lookup_name (name c) (cond p) = None /\ cond (addCondition c p) = c :: cond p).
Proof.
  destruct (lookup_name (name c) (cond p)) as [c0|] eqn:E.
  - left. unfold addCondition, getCondition.
    destruct (cond p) as [|d l] eqn:El; [discriminate|]. rewrite E. simpl. exact El.
  - right. split; [reflexivity|]. apply addCondition_new. exact E.
Qed.

Lemma malloc_fresh {V : Type} (h : gmap nat V) : h !! malloc h = None.
Proof. apply not_elem_of_dom. apply is_fresh. Qed.

(** Registering a name that is not in the registry: the condition
    becomes the head of the list and is what a lookup of its name finds,
    and lookups of all other names are as before. *)
Theorem addCondition_registers_new_name (c : Condition) (p : Poseta) :
  lookup_name (name c) (cond p) = None ->
  cond (addCondition c p) = c :: cond p /\
  (getCondition (name c) (addCondition c p)).1 = Some c /\
  (forall n, n <> name c ->
     lookup_name n (cond (addCondition c p)) = lookup_name n (cond p)).
Proof.
  intros H. destruct (addCondition_new c p H) as (Hc & _).
  split; [exact Hc|]. split.
  - unfold getCondition. rewrite Hc. simpl.
    destruct (decide (name c = name c)); [reflexivity|contradiction].
  - intros n Hn. rewrite Hc. simpl.
    destruct (decide (name c = n)); [congruence|reflexivity].
Qed.

Lemma addCondition_registers_new_name_witness :
  (getCondition (fn_app 3)
     (addCondition (mkCondition (fn_app 3) 0%Z fn_poseta_task 7)
        (initPoseta (mkLog 6%Z []) Scenarios.booted))).1
  = Some (mkCondition (fn_app 3) 0%Z fn_poseta_task 7).
Proof.
  destruct (addCondition_registers_new_name
              (mkCondition (fn_app 3) 0%Z fn_poseta_task 7)
              (initPoseta (mkLog 6%Z []) Scenarios.booted) eq_refl)
    as (_ & H & _).
  exact H.
Defined.

(** No name is ever registered twice: if the names in the registry are
    pairwise distinct, they still are after [addCondition] and after
    [poseta_func1_if_func0], whatever is registered and whether or not it
    is accepted. *)
Theorem registry_names_stay_distinct
    (c : Condition) (f0 f1 : funptr) (junk0 junk1 : ptr) (p : Poseta) :
  NoDup (name <$> cond p) ->
  NoDup (name <$> cond (addCondition c p)) /\
  NoDup (name <$> cond (poseta_func1_if_func0 f0 f1 junk0 junk1 p)).
Proof.
  assert (Hadd : forall c p, NoDup (name <$> cond p) ->
                             NoDup (name <$> cond (addCondition c p))).
  { clear. intros c p Hnd. destruct (addCondition_cases c p) as [->|[Hnone ->]].
    - exact Hnd.
    - simpl. apply NoDup_cons. split; [|exact Hnd].
      apply lookup_name_None. exact Hnone. }
  intros Hnd. split; [apply Hadd; exact Hnd|].
  unfold poseta_func1_if_func0. apply Hadd. simpl. apply Hadd. simpl. exact Hnd.
Qed.

Lemma registry_names_stay_distinct_witness :
  NoDup (name <$> cond (poseta_func1_if_func0 (fn_app 1) (fn_app 1) 0 0
                          (initPoseta (mkLog 6%Z []) Scenarios.booted))).
Proof.
  destruct (registry_names_stay_distinct
              (mkCondition (fn_app 1) 0%Z fn_poseta_task 7) (fn_app 1) (fn_app 1) 0 0
              (initPoseta (mkLog 6%Z []) Scenarios.booted)) as [_ H].
  - simpl. apply NoDup_nil_2.
  - exact H.
Defined.

Lemma pair_registration
    (f0 f1 : funptr) (junk0 junk1 : ptr) (p : Poseta) :
  f0 <> f1 ->
  lookup_name f0 (cond p) = None -> lookup_name f1 (cond p) = None ->
  let p' := poseta_func1_if_func0 f0 f1 junk0 junk1 p in
  exists a0 a1 st,
    a0 <> a1 /\
    ptasks p !! a0 = None /\ ptasks p !! a1 = None /\ channels p !! st = None /\
    lookup_name f0 (cond p') = Some (mkCondition f0 0%Z fn_poseta_task a0) /\
    lookup_name f1 (cond p') = Some (mkCondition f1 1%Z fn_poseta_task a1) /\
    ptasks p' !! a0 = Some (mkPosetaTask f0 junk0 ptreaty_should_be_first st 0%Z) /\
    ptasks p' !! a1 = Some (mkPosetaTask f1 junk1 ptreaty_should_be_later st 1%Z) /\
    channels p' !! st = Some Ptreaty.ptreaty_init /\
    (forall n c, lookup_name n (cond p) = Some c -> lookup_name n (cond p') = Some c) /\
    (forall k v, ptasks p !! k = Some v -> ptasks p' !! k = Some v) /\
    abbey p' = abbey p.
Proof.
  intros Hne H0 H1 p'. subst p'. unfold poseta_func1_if_func0.
  set (st := malloc (channels p)).
  set (a0 := malloc (ptasks p)).
  set (pt0 := mkPosetaTask f0 junk0 ptreaty_should_be_first st 0%Z).
  set (p1 := with_channels (<[st := Ptreaty.ptreaty_init]> (channels p))
               (with_ptasks (<[a0 := pt0]> (ptasks p)) p)).
  set (c0 := mkCondition f0 0%Z fn_poseta_task a0).
  destruct (addCondition_new c0 p1 H0) as (Hc2 & Ht2 & Hch2 & Hab2).
  set (p2 := addCondition c0 p1) in *.
  set (a1 := malloc (ptasks p2)).
  set (pt1 := mkPosetaTask f1 junk1 ptreaty_should_be_later st 1%Z).
  set (p3 := with_ptasks (<[a1 := pt1]> (ptasks p2)) p2).
  set (c1 := mkCondition f1 1%Z fn_poseta_task a1).
  assert (H1' : lookup_name (name c1) (cond p3) = None).
  { simpl. rewrite Hc2. simpl. destruct (decide (f0 = f1)); [contradiction|exact H1]. }
  destruct (addCondition_new c1 p3 H1') as (Hc4 & Ht4 & Hch4 & Hab4).
  assert (Ha1 : ptasks p2 !! a1 = None) by apply malloc_fresh.
  assert (Ha0 : ptasks p !! a0 = None) by apply malloc_fresh.
  rewrite Ht2 in Ha1. simpl in Ha1.
  assert (Hne01 : a0 <> a1).
  { intros E. rewrite <- E, lookup_insert_eq in Ha1. discriminate. }
  rewrite lookup_insert_ne in Ha1 by exact Hne01.
  exists a0, a1, st. rewrite Hc4, Ht4, Hch4, Hab4. simpl. rewrite Hc2, Ht2, Hch2, Hab2. simpl.
  split; [exact Hne01|]. split; [exact Ha0|]. split; [exact Ha1|].
  split; [apply malloc_fresh|]. split.
  { destruct (decide (f1 = f0)); [congruence|].
    destruct (decide (f0 = f0)); [reflexivity|contradiction]. }
  split.
  { destruct (decide (f1 = f1)); [reflexivity|contradiction]. }
  split.
  { rewrite lookup_insert_ne by congruence. apply lookup_insert_eq. }
  split; [apply lookup_insert_eq|]. split; [apply lookup_insert_eq|]. split.
  { intros n c Hn. destruct (decide (f1 = n)) as [<-|_]; [congruence|].
    destruct (decide (f0 = n)) as [<-|_]; [congruence|]. exact Hn. }
  split; [|reflexivity].
  intros k v Hk. rewrite !lookup_insert_ne by congruence. exact Hk.
Qed.

(** Registering a pair of functions that are distinct and both new:
    each gets its own entry running [poseta_task] on its own fresh
    [PosetaTask]; that of [func0] has order 0 and the treaty
    [ptreaty_should_be_first], that of [func1] order 1 and
    [ptreaty_should_be_later]; both point to one channel, freshly
    allocated and initialised. What was registered or allocated before
    is untouched. *)
Theorem pair_registration_shares_one_channel
    (f0 f1 : funptr) (junk0 junk1 : ptr) (p : Poseta) :
  f0 <> f1 ->
  lookup_name f0 (cond p) = None -> lookup_name f1 (cond p) = None ->
  let p' := poseta_func1_if_func0 f0 f1 junk0 junk1 p in
  exists a0 a1 st,
    a0 <> a1 /\
    ptasks p !! a0 = None /\ ptasks p !! a1 = None /\ channels p !! st = None /\
    lookup_name f0 (cond p') = Some (mkCondition f0 0%Z fn_poseta_task a0) /\
    lookup_name f1 (cond p') = Some (mkCondition f1 1%Z fn_poseta_task a1) /\
    ptasks p' !! a0 = Some (mkPosetaTask f0 junk0 ptreaty_should_be_first st 0%Z) /\
    ptasks p' !! a1 = Some (mkPosetaTask f1 junk1 ptreaty_should_be_later st 1%Z) /\
    channels p' !! st = Some Ptreaty.ptreaty_init /\
    (forall n c, lookup_name n (cond p) = Some c -> lookup_name n (cond p') = Some c) /\
    (forall k v, ptasks p !! k = Some v -> ptasks p' !! k = Some v) /\
    abbey p' = abbey p.
Proof. exact (pair_registration f0 f1 junk0 junk1 p). Qed.

Lemma pair_registration_shares_one_channel_witness :
  exists a0 a1 st,
    ptasks (poseta_func1_if_func0 (fn_app 1) (fn_app 2) 0 0
              (initPoseta (mkLog 6%Z []) Scenarios.booted)) !! a0
      = Some (mkPosetaTask (fn_app 1) 0 ptreaty_should_be_first st 0%Z) /\
    ptasks (poseta_func1_if_func0 (fn_app 1) (fn_app 2) 0 0
              (initPoseta (mkLog 6%Z []) Scenarios.booted)) !! a1
      = Some (mkPosetaTask (fn_app 2) 0 ptreaty_should_be_later st 1%Z).
Proof.
  destruct (pair_registration_shares_one_channel (fn_app 1) (fn_app 2) 0 0
              (initPoseta (mkLog 6%Z []) Scenarios.booted))
    as (a0 & a1 & st & _ & _ & _ & _ & _ & _ & H0 & H1 & _);
    [discriminate | reflexivity | reflexivity |].
  exists a0, a1, st. split; [exact H0 | exact H1].
Defined.

Lemma search_loop_keeps_others (st newState : Z) (mayFail : bool)
    (env : list (realloc_reply Task)) (a a' : Abbey) (j k : nat) (t : Task) :
  search_loop st newState mayFail env a = Claimed j a' ->
  task a !! k = Some t -> k < nofTasks a -> k <> j ->
  task a' !! k = Some t /\ k < nofTasks a'.
Proof.
  revert a. induction env as [|r env IH]; intros a; simpl; [discriminate|].
  unfold search_pass. destruct (first_in_state a st) as [i|] eqn:E.
  - intros [= <- <-] Ht Hk Hne. simpl.
    rewrite list_lookup_alter_ne by congruence. auto.
  - destruct (mayFail || (dedicatedTaskBuffer a =? 0)); [discriminate|].
    intros H Ht Hk Hne. apply (IH _ H); [| |exact Hne].
    + destruct r as [|fresh]; simpl; [exact Ht|].
      rewrite lookup_app_l.
      * rewrite lookup_take_lt by lia. exact Ht.
      * rewrite length_take. apply lookup_lt_Some in Ht. lia.
    + destruct r as [|fresh]; simpl; lia.
Qed.

(** What a dispatch that returns has done to the task array. *)
Lemma dispatch_returned_slot
    (fn : funptr) (ctx : ptr) (taskDesc : string)
    (env : list (realloc_reply Task)) (a a' : Abbey) (ret : Z) :
  dispatch_described_task fn ctx taskDesc env a = Returned ret a' ->
  exists i,
    i < nofTasks a' /\
    task a' !! i = Some (mkTask TS_OPEN fn ctx (strncpy taskDesc 63)) /\
    (forall k t, task a !! k = Some t -> k < nofTasks a -> state t <> TS_READY ->
       k <> i /\ task a' !! k = Some t).
Proof.
  unfold dispatch_described_task, find_task_and_change_state.
  destruct (search_loop TS_READY TS_CREATING false env (with_abbeyMutex true a))
    as [i a1|a1|a1] eqn:E; try discriminate.
  simpl. intros [= <- <-]. exists i. simpl.
  pose proof (MonkFacts.search_loop_claimed_bound _ _ _ _ _ _ _ E) as Hi.
  destruct (AbbeyFacts.search_loop_claimed _ _ _ _ _ _ _ E) as (t0 & Ht0 & _).
  split; [exact Hi|]. split.
  - rewrite !list_lookup_alter_eq, Ht0. reflexivity.
  - intros k t Ht Hk Hs.
    assert (Hne : i <> k).
    { apply (MonkFacts.search_loop_avoids TS_READY TS_CREATING false env
               (with_abbeyMutex true a) a1 k i t Ht Hs Hk E). }
    split; [congruence|].
    rewrite !list_lookup_alter_ne by exact Hne.
    apply (search_loop_keeps_others TS_READY TS_CREATING false env
             (with_abbeyMutex true a) a1 i k t E Ht Hk). congruence.
Qed.

Lemma dispatch_registered_full
    (fn : funptr) (ctx : ptr) (taskDesc : string)
    (env : list (realloc_reply Task)) (p : Poseta) (lc : Condition) :
  lookup_name fn (cond p) = Some lc ->
  condition_index lc = 0%Z \/ condition_index lc = 1%Z ->
  exists p',
    dispatch_poseta_task fn ctx taskDesc env p
      = Dispatched
          (dispatch_described_task (exec lc) (cond_context lc) taskDesc env (abbey p)) p' /\
    cond p' = cond p /\
    ptasks p' = alter (set_pt_context ctx) (cond_context lc) (ptasks p) /\
    abbey p'
      = abbey_of (dispatch_described_task (exec lc) (cond_context lc) taskDesc env (abbey p)).
Proof.
  intros H Hidx. unfold dispatch_poseta_task.
  rewrite (PosetaFacts.getCondition_found fn _ lc) by exact H.
  destruct (decide (condition_index lc = 0%Z \/ condition_index lc = 1%Z)); [|contradiction].
  eexists. split; [reflexivity|]. repeat split.
Qed.

(** Two dispatches of one registered function that are both still
    pending share a single [PosetaTask]: each leaves its own OPEN slot
    that runs the wrapper on the same address, and the context stored
    there is that of the second dispatch. The context of the first is
    overwritten before its task has run. *)
Theorem pending_dispatches_share_context
    (fn : funptr) (ctx1 ctx2 : ptr) (d1 d2 : string)
    (env1 env2 : list (realloc_reply Task)) (p p1 p2 : Poseta)
    (lc : Condition) (pt : PosetaTask) (r1 r2 : Z) (a1 a2 : Abbey) :
  lookup_name fn (cond p) = Some lc ->
  condition_index lc = 0%Z \/ condition_index lc = 1%Z ->
  ptasks p !! cond_context lc = Some pt ->
  dispatch_poseta_task fn ctx1 d1 env1 p = Dispatched (Returned r1 a1) p1 ->
  dispatch_poseta_task fn ctx2 d2 env2 p1 = Dispatched (Returned r2 a2) p2 ->
  ptasks p2 !! cond_context lc = Some (set_pt_context ctx2 pt) /\
  exists i j,
    i <> j /\
    task (abbey p2) !! i
      = Some (mkTask TS_OPEN (exec lc) (cond_context lc) (strncpy d1 63)) /\
    task (abbey p2) !! j
      = Some (mkTask TS_OPEN (exec lc) (cond_context lc) (strncpy d2 63)).
Proof.
  intros Hl Hidx Hpt H1 H2.
  destruct (dispatch_registered_full fn ctx1 d1 env1 p lc Hl Hidx)
    as (q1 & E1 & Hc1 & Ht1 & Ha1).
  rewrite E1 in H1. injection H1 as Hd1 <-.
  rewrite Hd1 in Ha1. simpl in Ha1.
  assert (Hl1 : lookup_name fn (cond q1) = Some lc) by (rewrite Hc1; exact Hl).
  destruct (dispatch_registered_full fn ctx2 d2 env2 q1 lc Hl1 Hidx)
    as (q2 & E2 & Hc2 & Ht2 & Ha2).
  rewrite E2 in H2. injection H2 as Hd2 <-.
  rewrite Hd2 in Ha2. simpl in Ha2. rewrite Ha1 in Hd2.
  split.
  - rewrite Ht2, Ht1, !lookup_alter_eq, Hpt. reflexivity.
  - destruct (dispatch_returned_slot _ _ _ _ _ _ _ Hd1) as (i & Hi & Hsi & _).
    destruct (dispatch_returned_slot _ _ _ _ _ _ _ Hd2) as (j & Hj & Hsj & Hkeep).
    destruct (Hkeep i _ Hsi Hi ltac:(discriminate)) as [Hne Hsi'].
    exists i, j. rewrite Ha2. auto.
Qed.

Lemma pending_dispatches_share_context_witness :
  exists p2,
    ptasks p2 !! 0 = Some (mkPosetaTask (fn_app 1) 22 ptreaty_should_be_first 0 0%Z).
Proof.
  eexists. eapply proj1.
  eapply (pending_dispatches_share_context (fn_app 1) 11 22 "a" "b"
            [Scenarios.zeroed] [Scenarios.zeroed]
            (poseta_func1_if_func0 (fn_app 1) (fn_app 2) 0 0
               (initPoseta (mkLog 6%Z []) Scenarios.booted4))
            _ _
            (mkCondition (fn_app 1) 0%Z fn_poseta_task 0)
            (mkPosetaTask (fn_app 1) 0 ptreaty_should_be_first 0 0%Z));
    [reflexivity | left; reflexivity | reflexivity | reflexivity | reflexivity].
Defined.

(** [dispatch_tuple_task] and the monk: a tuple dispatch that returns
    leaves an OPEN slot holding [tuple_task] with a fresh [TupleTask];
    the monk that runs the slot calls [func0] on [context0] and then
    [func1] on [context1], and nothing else. Tuples allocated before are
    untouched. *)
Theorem tuple_dispatch_runs_both_in_order
    (f0 : funptr) (c0 : ptr) (f1 : funptr) (c1 : ptr) (taskDesc : string)
    (env : list (realloc_reply Task))
    (ptasks : gmap nat PosetaTask) (tuples tuples' : gmap nat TupleTask)
    (a a' : Abbey) (ret : Z) :
  dispatch_tuple_task f0 c0 f1 c1 taskDesc env tuples a = (tuples', Returned ret a') ->
  (exists i t,
     task a' !! i = Some t /\ state t = TS_OPEN /\ func t = fn_tuple_task /\
     run_task ptasks tuples' t = Some [CallFn f0 c0; CallFn f1 c1]) /\
  (forall k v, tuples !! k = Some v -> tuples' !! k = Some v).
Proof.
  unfold dispatch_tuple_task. intros [= <- Hd]. split.
  - destruct (dispatch_returned_slot _ _ _ _ _ _ _ Hd) as (i & _ & Hs & _).
    eexists i, _. split; [exact Hs|]. split; [reflexivity|]. split; [reflexivity|].
    unfold run_task, tuple_task. simpl. rewrite lookup_insert_eq. reflexivity.
  - intros k v Hk. rewrite lookup_insert_ne; [exact Hk|].
    intros <-. rewrite malloc_fresh in Hk. discriminate.
Qed.

Lemma tuple_dispatch_runs_both_in_order_witness :
  exists t,
    task (abbey_of (dispatch_tuple_task (fn_app 1) 5 (fn_app 2) 6 "pair"
                      [Scenarios.zeroed] ∅ Scenarios.booted).2) !! 2 = Some t /\
    run_task ∅ (dispatch_tuple_task (fn_app 1) 5 (fn_app 2) 6 "pair"
                  [Scenarios.zeroed] ∅ Scenarios.booted).1 t
      = Some [CallFn (fn_app 1) 5; CallFn (fn_app 2) 6].
Proof.
  destruct (tuple_dispatch_runs_both_in_order (fn_app 1) 5 (fn_app 2) 6 "pair"
              [Scenarios.zeroed] ∅ ∅ _ Scenarios.booted _ 0%Z eq_refl)
    as [(i & t & _ & _ & _ & H) _].
  eexists. split; [reflexivity|]. reflexivity.
Defined.

(** A registered pair, dispatched: the slot of [func0] runs [func0] on
    the context given and then [ptreaty_should_be_first]; the slot of
    [func1] runs [ptreaty_should_be_later] and then [func1] on its
    context; both treaties are called on the same channel. *)
Theorem registered_pair_wrappers_run_in_role
    (f0 f1 : funptr) (junk0 junk1 ctx0 ctx1 : ptr) (d0 d1 : string)
    (env0 env1 : list (realloc_reply Task)) (tuples : gmap nat TupleTask)
    (p p0 p1 : Poseta) (r0 r1 : Z) (b0 b1 : Abbey) :
  f0 <> f1 ->
  lookup_name f0 (cond p) = None -> lookup_name f1 (cond p) = None ->
  dispatch_poseta_task f0 ctx0 d0 env0 (poseta_func1_if_func0 f0 f1 junk0 junk1 p)
    = Dispatched (Returned r0 b0) p0 ->
  dispatch_poseta_task f1 ctx1 d1 env1 p0 = Dispatched (Returned r1 b1) p1 ->
  exists i j t0 t1 st,
    i <> j /\
    task (abbey p1) !! i = Some t0 /\ task (abbey p1) !! j = Some t1 /\
    state t0 = TS_OPEN /\ state t1 = TS_OPEN /\
    run_task (ptasks p1) tuples t0
      = Some [CallFn f0 ctx0; CallTreaty ptreaty_should_be_first st] /\
    run_task (ptasks p1) tuples t1
      = Some [CallTreaty ptreaty_should_be_later st; CallFn f1 ctx1].
Proof.
  intros Hne Hn0 Hn1 H0 H1.
  destruct (pair_registration f0 f1 junk0 junk1 p Hne Hn0 Hn1)
    as (a0 & a1 & st & Ha & _ & _ & _ & Hl0 & Hl1 & Hp0 & Hp1 & _).
  set (q := poseta_func1_if_func0 f0 f1 junk0 junk1 p) in *.
  destruct (dispatch_registered_full f0 ctx0 d0 env0 q _ Hl0 ltac:(left; reflexivity))
    as (q0 & E0 & Hc0 & Ht0 & Hab0).
  rewrite E0 in H0. injection H0 as Hd0 <-. simpl in *.
  rewrite Hd0 in Hab0. simpl in Hab0.
  assert (Hl1' : lookup_name f1 (cond q0) = Some (mkCondition f1 1%Z fn_poseta_task a1))
    by (rewrite Hc0; exact Hl1).
  destruct (dispatch_registered_full f1 ctx1 d1 env1 q0 _ Hl1' ltac:(right; reflexivity))
    as (q1 & E1 & Hc1 & Ht1 & Hab1).
  rewrite E1 in H1. injection H1 as Hd1 <-. simpl in *.
  rewrite Hd1 in Hab1. simpl in Hab1. rewrite Hab0 in Hd1.
  destruct (dispatch_returned_slot _ _ _ _ _ _ _ Hd0) as (i & Hi & Hsi & _).
  destruct (dispatch_returned_slot _ _ _ _ _ _ _ Hd1) as (j & Hj & Hsj & Hkeep).
  destruct (Hkeep i _ Hsi Hi ltac:(discriminate)) as [Hij Hsi'].
  eexists i, j, _, _, st. rewrite Hab1.
  split; [exact Hij|]. split; [exact Hsi'|]. split; [exact Hsj|].
  split; [reflexivity|]. split; [reflexivity|].
  unfold run_task, poseta_task. simpl. rewrite Ht1, Ht0. simpl.
  rewrite lookup_alter_ne by congruence. rewrite lookup_alter_eq, Hp0.
  rewrite lookup_alter_eq, lookup_alter_ne by congruence. rewrite Hp1.
  split; reflexivity.
Qed.

Lemma registered_pair_wrappers_run_in_role_witness :
  exists p1 i j t0 t1 st,
    i <> j /\
    task (abbey p1) !! i = Some t0 /\ task (abbey p1) !! j = Some t1 /\
    state t0 = TS_OPEN /\ state t1 = TS_OPEN /\
    run_task (ptasks p1) ∅ t0
      = Some [CallFn (fn_app 1) 11; CallTreaty ptreaty_should_be_first st] /\
    run_task (ptasks p1) ∅ t1
      = Some [CallTreaty ptreaty_should_be_later st; CallFn (fn_app 2) 22].
Proof.
  eexists.
  eapply (registered_pair_wrappers_run_in_role (fn_app 1) (fn_app 2) 0 0 11 22
            "a" "b" [Scenarios.zeroed] [Scenarios.zeroed] ∅
            (initPoseta (mkLog 6%Z []) Scenarios.booted4));
    [discriminate | reflexivity | reflexivity | reflexivity | reflexivity].
Defined.

End RegistryFacts.

(** ** The mailbox, continued *)

Module MailboxFacts.
Import Pthread Log Tcpip Mailbox.

Lemma count_from_chain (fuel : nat) (h : gmap nat TcpipMessage) (p : option nat)
    (l : list nat) (res : Z) :
  chain h p l -> length l <= fuel ->
  count_from fuel h p res = Some (Ok (res + Z.of_nat (length l))%Z).
Proof.
  revert fuel p res. induction l as [|a l IH]; intros fuel p res Hc Hf.
  - simpl in Hc. subst p. destruct fuel; simpl; rewrite Z.add_0_r; reflexivity.
  - destruct Hc as (-> & ma & Ha & Hc). destruct fuel as [|fuel]; [simpl in Hf; lia|].
    simpl. rewrite Ha. rewrite (IH fuel _ _ Hc) by (simpl in Hf; lia).
    do 2 f_equal. lia.
Qed.

(** [count] returns the number of messages in the mailbox, given fuel for
    at least that many steps. *)
Theorem count_is_length (t : tid) (fuel : nat) (h : gmap nat TcpipMessage)
    (M : TcpipMailbox) (l : list nat) :
  holds h M l -> length l <= fuel ->
  count t fuel h M = Some (Ok (Z.of_nat (length l))).
Proof.
  intros (Hlock & Hc & _) Hf. unfold count. rewrite Hlock. simpl.
  rewrite (count_from_chain fuel h (first M) l 0 Hc Hf). reflexivity.
Qed.

Lemma count_is_length_witness :
  count 0 1 {[ 5 := mkMessage 2%Z [1%Z; 2%Z] None ]} (mkMailbox (Some 5) (Some 5) None)
  = Some (Ok 1%Z).
Proof.
  apply (count_is_length 0 1 _ _ [5]); [|simpl; lia].
  split; [reflexivity|]. split.
  - simpl. split; [reflexivity|]. eexists. split; [apply lookup_singleton_eq|reflexivity].
  - split; [apply NoDup_singleton|]. intros _. reflexivity.
Defined.

(** [advance] drops the oldest message and returns the one that is now
    first, not the one dropped: on a mailbox with a single message it
    returns [NULL], as it does on an empty one. The remaining messages
    keep their order and the dropped one no longer points into the
    mailbox. *)
Theorem advance_returns_new_head (t : tid) (h : gmap nat TcpipMessage)
    (M : TcpipMailbox) (l : list nat) :
  holds h M l ->
  match l with
  | [] => advance t h M = Ok (None, h, M)
  | a :: l' =>
      exists h1 M1,
        advance t h M = Ok (head l', h1, M1) /\
        holds h1 M1 l' /\ next <$> h1 !! a = Some None
  end.
Proof.
  intros (Hlock & Hc & Hnd & Hlast). destruct M as [f la lk]. simpl in *. subst lk.
  destruct l as [|a l'].
  - simpl in Hc. subst f. reflexivity.
  - destruct Hc as (-> & ma & Ha & Hc).
    apply NoDup_cons in Hnd as [Hal Hnd].
    unfold advance. simpl. rewrite Ha.
    assert (Hhead : next ma = head l').
    { destruct l' as [|b l'']; simpl in Hc; [exact Hc|]. destruct Hc as [-> _]. reflexivity. }
    rewrite Hhead. eexists _, _. split; [reflexivity|]. split.
    + split; [reflexivity|]. simpl. split.
      * rewrite <- Hhead. apply TcpipFacts.chain_insert_other; assumption.
      * split; [exact Hnd|]. intros Hne. rewrite (Hlast ltac:(discriminate)).
        destruct l' as [|b l'']; [congruence|]. apply last_cons_cons.
    + rewrite lookup_insert_eq. reflexivity.
Qed.

Lemma advance_returns_new_head_witness :
  exists h1 M1,
    advance 0 {[ 5 := mkMessage 2%Z [1%Z; 2%Z] None ]} (mkMailbox (Some 5) (Some 5) None)
      = Ok (None, h1, M1) /\ holds h1 M1 [].
Proof.
  destruct (advance_returns_new_head 0 {[ 5 := mkMessage 2%Z [1%Z; 2%Z] None ]}
              (mkMailbox (Some 5) (Some 5) None) [5]) as (h1 & M1 & H1 & H2 & _).
  - split; [reflexivity|]. split.
    + simpl. split; [reflexivity|]. eexists. split; [apply lookup_singleton_eq|reflexivity].
    + split; [apply NoDup_singleton|]. intros _. reflexivity.
  - exists h1, M1. split; [exact H1 | exact H2].
Defined.

(** [move] takes the oldest message of the source and puts it behind all
    messages of the destination, in one step under both locks; the other
    messages of both mailboxes keep their order and no other mailbox
    changes. Called with one mailbox as source and destination, it
    blocks on the lock it has just taken. *)
Theorem move_transfers_oldest (t : tid) (h : gmap nat TcpipMessage)
    (boxes : gmap nat TcpipMailbox) (src dest : nat) (lc : LogConf)
    (Ms : TcpipMailbox) (a : nat) (ls : list nat) :
  boxes !! src = Some Ms -> holds h Ms (a :: ls) ->
  (src = dest -> move t h boxes src dest lc = Suspended) /\
  (src <> dest ->
   forall Md ld,
     boxes !! dest = Some Md -> holds h Md ld ->
     a ∉ ld -> (forall x, x ∈ ld -> x ∉ ls) ->
     exists h' boxes' Ms' Md',
       move t h boxes src dest lc = Ok (h', boxes', lc) /\
       boxes' !! src = Some Ms' /\ boxes' !! dest = Some Md' /\
       holds h' Ms' ls /\ holds h' Md' (ld ++ [a]) /\
       (forall k, k <> src -> k <> dest -> boxes' !! k = boxes !! k)).
Proof.
  intros Hsrc (Hlock & Hc & Hnd & Hlast).
  destruct Ms as [fs las lks]. simpl in *. subst lks.
  destruct Hc as (-> & ma & Ha & Hc).
  apply NoDup_cons in Hnd as [Hal Hnd].
  split.
  - intros <-. unfold move. rewrite Hsrc. simpl. rewrite lookup_insert_eq. reflexivity.
  - intros Hne Md ld Hdest (Hlockd & Hcd & Hndd & Hlastd) Had Hdisj.
    destruct Md as [fd lad lkd]. simpl in *. subst lkd.
    unfold move. rewrite Hsrc. simpl.
    rewrite lookup_insert_ne by exact Hne. rewrite Hdest. simpl.
    assert (Hsrc_last : ls <> [] -> las = list.last ls).
    { intros Hls. rewrite (Hlast ltac:(discriminate)).
      destruct ls as [|b ls']; [congruence|]. apply last_cons_cons. }
    destruct ld as [|b ld'].
    + simpl in Hcd. subst fd. rewrite Ha.
      eexists _, _, _, _. split; [reflexivity|].
      split; [rewrite lookup_insert_ne by congruence; apply lookup_insert_eq|].
      split; [apply lookup_insert_eq|]. split; [|split].
      * split; [reflexivity|]. simpl. split.
        -- apply TcpipFacts.chain_insert_other; assumption.
        -- split; [exact Hnd | exact Hsrc_last].
      * split; [reflexivity|]. simpl. split.
        -- split; [reflexivity|]. eexists. split; [apply lookup_insert_eq|reflexivity].
        -- split; [apply NoDup_singleton|]. intros _. reflexivity.
      * intros k Hk1 Hk2. rewrite !lookup_insert_ne by congruence. reflexivity.
    + assert (Hfd : fd = Some b) by (destruct Hcd as [-> _]; reflexivity). subst fd.
      rewrite (Hlastd ltac:(discriminate)).
      destruct (list.last (b :: ld')) as [lst|] eqn:El;
        [|apply last_None in El; discriminate].
      assert (Hin : lst ∈ b :: ld') by (apply last_Some_elem_of; exact El).
      destruct (TcpipFacts.chain_allocated _ _ _ _ Hcd Hin) as [ml Hml]. rewrite Hml.
      assert (Hla : lst <> a) by (intros ->; contradiction).
      rewrite lookup_insert_ne by exact Hla. rewrite Ha.
      eexists _, _, _, _. split; [reflexivity|].
      split; [rewrite lookup_insert_ne by congruence; apply lookup_insert_eq|].
      split; [apply lookup_insert_eq|]. split; [|split].
      * split; [reflexivity|]. simpl. split.
        -- apply TcpipFacts.chain_insert_other; [|exact Hal].
           apply TcpipFacts.chain_insert_other; [exact Hc|]. apply Hdisj. exact Hin.
        -- split; [exact Hnd | exact Hsrc_last].
      * split; [reflexivity|]. simpl. split.
        -- exact (TcpipFacts.chain_snoc h (Some b) (b :: ld') lst a ml ma Hcd Hndd El Hml Had).
        -- split.
           ++ rewrite app_comm_cons. apply NoDup_app. split; [exact Hndd|]. split.
              ** intros x Hx Hx'. apply list_elem_of_singleton in Hx'. subst x. contradiction.
              ** apply NoDup_singleton.
           ++ intros _. rewrite app_comm_cons, last_snoc. reflexivity.
      * intros k Hk1 Hk2. rewrite !lookup_insert_ne by congruence. reflexivity.
Qed.

Lemma move_transfers_oldest_witness :
  exists h' boxes' Ms' Md',
    move 0 {[ 5 := mkMessage 2%Z [1%Z; 2%Z] None ]}
      {[ 1 := mkMailbox (Some 5) (Some 5) None; 2 := mkMailbox None None None ]}
      1 2 (mkLog 6%Z []) = Ok (h', boxes', mkLog 6%Z []) /\
    boxes' !! 1 = Some Ms' /\ boxes' !! 2 = Some Md' /\
    holds h' Ms' [] /\ holds h' Md' [5].
Proof.
  destruct (move_transfers_oldest 0 {[ 5 := mkMessage 2%Z [1%Z; 2%Z] None ]}
              {[ 1 := mkMailbox (Some 5) (Some 5) None; 2 := mkMailbox None None None ]}
              1 2 (mkLog 6%Z []) (mkMailbox (Some 5) (Some 5) None) 5 [])
    as [_ H].
  - reflexivity.
  - split; [reflexivity|]. split.
    + simpl. split; [reflexivity|]. eexists. split; [apply lookup_singleton_eq|reflexivity].
    + split; [apply NoDup_singleton|]. intros _. reflexivity.
  - destruct (H ltac:(discriminate) (mkMailbox None None None) [])
      as (h' & boxes' & Ms' & Md' & H1 & H2 & H3 & H4 & H5 & _).
    + reflexivity.
    + split; [reflexivity|]. split; [reflexivity|]. split; [apply NoDup_nil_2|].
      intros Hne. exfalso. apply Hne. reflexivity.
    + apply not_elem_of_nil.
    + intros x Hx. inversion Hx.
    + exists h', boxes', Ms', Md'. auto.
Defined.

End MailboxFacts.

(** ** The list of sockets *)

Module TcpipbankFacts.
Import Abbey Tcpipbank.




Lemma tcpipbank_del_frees (i : Z) (l : list TcpipSocket_LI) (alloc alloc' : gset nat) :
  tcpipbank_del i l alloc = Some alloc' ->
  alloc' ⊆ alloc /\
  forall n, n ∈ l -> id n = i -> item n <> 0 -> item n ∉ alloc'.
Proof.
  revert alloc. induction l as [|m l IH]; intros alloc; simpl.
  - intros [= <-]. split; [reflexivity|]. intros n Hn. inversion Hn.
  - destruct (id m =? i)%Z eqn:E.
    + unfold free. destruct (decide (item m = 0)) as [Hz|Hz].
      * intros H. destruct (IH _ H) as [Hsub Hfree]. split; [exact Hsub|].
        intros n Hn Hid Hnz. apply elem_of_cons in Hn as [->|Hn]; [contradiction|].
        exact (Hfree n Hn Hid Hnz).
      * destruct (decide (item m ∈ alloc)); [|discriminate].
        intros H. destruct (IH _ H) as [Hsub Hfree]. split.
        { intros x Hx. apply Hsub in Hx. apply elem_of_difference in Hx. tauto. }
        intros n Hn Hid Hnz. apply elem_of_cons in Hn as [->|Hn].
        -- intros Hin. apply Hsub in Hin. apply elem_of_difference in Hin as [_ Hin].
           apply Hin. apply elem_of_singleton. reflexivity.
        -- exact (Hfree n Hn Hid Hnz).
    + intros H. destruct (IH _ H) as [Hsub Hfree]. split; [exact Hsub|].
      intros n Hn Hid Hnz. apply elem_of_cons in Hn as [->|Hn].
      * apply Z.eqb_neq in E. contradiction.
      * exact (Hfree n Hn Hid Hnz).
Qed.

Lemma tcpipbank_get_elem (i : Z) (l : list TcpipSocket_LI) (q : ptr) :
  tcpipbank_get i l = Some q -> exists n, n ∈ l /\ id n = i /\ item n = q.
Proof.
  induction l as [|m l IH]; simpl; [discriminate|].
  destruct (id m =? i)%Z eqn:E.
  - intros [= <-]. exists m. apply Z.eqb_eq in E. split; [apply list_elem_of_here|auto].
  - intros H. destruct (IH H) as (n & Hn & Hid & Hit).
    exists n. split; [apply list_elem_of_further; exact Hn|auto].
Qed.

Lemma tcpipbank_del_dangling (i : Z) (l : list TcpipSocket_LI) (alloc : gset nat) (q : ptr) :
  tcpipbank_get i l = Some q -> q <> 0 -> q ∉ alloc -> tcpipbank_del i l alloc = None.
Proof.
  induction l as [|m l IH]; simpl; [discriminate|].
  destruct (id m =? i)%Z eqn:E.
  - intros [= <-] Hnz Hq. unfold free.
    destruct (decide (item m = 0)); [contradiction|].
    destruct (decide (item m ∈ alloc)); [contradiction|reflexivity].
  - intros H Hnz Hq. exact (IH H Hnz Hq).
Qed.

(** [tcpipbank_del] frees the socket but leaves its node in the list:
    after a delete the id still resolves, to the pointer that has just
    been freed, and a second delete of the same id frees that pointer
    again. *)
Theorem bank_del_leaves_freed_socket_listed
    (i : Z) (sockets : list TcpipSocket_LI) (alloc alloc' : gset nat) (q : ptr) :
  tcpipbank_get i sockets = Some q -> q <> 0 ->
  tcpipbank_del i sockets alloc = Some alloc' ->
  q ∈ alloc /\ (q ∉ alloc') /\
  tcpipbank_get i sockets = Some q /\
  tcpipbank_del i sockets alloc' = None.
Proof.
  intros Hget Hnz Hdel.
  destruct (tcpipbank_del_frees _ _ _ _ Hdel) as [Hsub Hfree].
  destruct (tcpipbank_get_elem _ _ _ Hget) as (n & Hn & Hid & Hit).
  assert (Hq : q ∉ alloc').
  { rewrite <- Hit. apply (Hfree n Hn Hid). congruence. }
  split.
  - destruct (decide (q ∈ alloc)) as [Hin|Hout]; [exact Hin|].
    rewrite (tcpipbank_del_dangling _ _ _ _ Hget Hnz Hout) in Hdel. discriminate.
  - split; [exact Hq|]. split; [exact Hget|].
    exact (tcpipbank_del_dangling _ _ _ _ Hget Hnz Hq).
Qed.

Lemma bank_del_leaves_freed_socket_listed_witness :
  tcpipbank_del 254 (tcpipbank_add 7 254 initSockets) ∅ = None.
Proof.
  destruct (bank_del_leaves_freed_socket_listed 254 (tcpipbank_add 7 254 initSockets)
              {[ 7 ]} ∅ 7 eq_refl ltac:(discriminate) eq_refl) as (_ & _ & _ & H).
  exact H.
Defined.

End TcpipbankFacts.

(** ** The socket tasks *)

Module SocketFacts.
Import Libc Abbey Pthread Ptreaty Bits Tcpip Socket.


Lemma chain_delete_other (h : gmap nat TcpipMessage) (p : option nat) (l : list nat) (x : nat) :
  chain h p l -> x ∉ l -> chain (delete x h) p l.
Proof.
  revert p. induction l as [|a l IH]; intros p Hc Hx; [exact Hc|].
  destruct Hc as (-> & m & Hm & Hc).
  apply not_elem_of_cons in Hx as [Hxa Hx].
  split; [reflexivity|]. exists m. split.
  - rewrite lookup_delete_ne by congruence. exact Hm.
  - exact (IH _ Hc Hx).
Qed.

Lemma dispatching_world (fn : funptr) (self : ptr) (d : string)
    (env : list (realloc_reply Task)) (w : World) :
  heap (world_of (dispatching fn self d env w Finished)) = heap w /\
  sock (world_of (dispatching fn self d env w Finished)) = sock w /\
  offered (world_of (dispatching fn self d env w Finished)) = offered w /\
  closed (world_of (dispatching fn self d env w Finished)) = closed w.
Proof.
  unfold dispatching.
  destruct (dispatch_described_task fn self d env (abbey w)); repeat split.
Qed.

(** [tcpip_send_packets] on an empty outbox: [pop] returns [NULL] and the
    task goes on to read [msg->payload] and [msg->size] through it.
    Nothing has been handed to [send] and nothing dispatched. *)
Theorem send_on_empty_outbox_dereferences_null
    (t : tid) (self : ptr) (retval : Z) (env : list (realloc_reply Task)) (w : World) :
  holds (heap w) (outbox (sock w)) [] ->
  tcpip_send_packets t self retval env w = NullDereference w.
Proof.
  intros H. unfold tcpip_send_packets.
  rewrite (TcpipFacts.pop_empty t _ _ H).
  destruct w as [h s a o c]. destruct s. reflexivity.
Qed.

Lemma send_on_empty_outbox_dereferences_null_witness :
  tcpip_send_packets 0 7 1%Z []
    (mkWorld ∅ (tcpip_get 1 (tcpip_get 0 (mkSocket 0 0 0 0 0 0 (mkMailbox None None None)
                                            (mkMailbox None None None) fn_null fn_null fn_null
                                            ptreaty_init 0)))
       Scenarios.booted [] [])
  = NullDereference
      (mkWorld ∅ (tcpip_get 1 (tcpip_get 0 (mkSocket 0 0 0 0 0 0 (mkMailbox None None None)
                                              (mkMailbox None None None) fn_null fn_null fn_null
                                              ptreaty_init 0)))
         Scenarios.booted [] []).
Proof.
  apply send_on_empty_outbox_dereferences_null.
  split; [reflexivity|]. split; [reflexivity|]. split; [apply NoDup_nil_2|].
  intros Hne. exfalso. apply Hne. reflexivity.
Defined.

(** [tcpip_send_packets] takes the oldest message off the outbox before
    it calls [send] and hands [send] the first [size] bytes of the
    payload. However the call ends, the message is no longer queued. If
    [send] returns -1 or 0 the task returns at once: the message is not
    put back and not freed, and no callback is dispatched. Otherwise the
    message is freed. *)
Theorem send_takes_message_off_first
    (t : tid) (self : ptr) (retval : Z) (env : list (realloc_reply Task))
    (w : World) (m : nat) (l : list nat) (mm : TcpipMessage) :
  holds (heap w) (outbox (sock w)) (m :: l) ->
  heap w !! m = Some mm ->
  Z.to_nat (size mm) <= length (payload mm) ->
  let e := tcpip_send_packets t self retval env w in
  holds (heap (world_of e)) (outbox (sock (world_of e))) l /\
  offered (world_of e)
    = offered w ++ [(write_sockfd (sock w), take (Z.to_nat (size mm)) (payload mm))] /\
  (retval = (-1)%Z \/ retval = 0%Z ->
     e = Finished (world_of e) /\ abbey (world_of e) = abbey w /\
     heap (world_of e) !! m = Some (set_next None mm)) /\
  (retval <> (-1)%Z -> retval <> 0%Z -> heap (world_of e) !! m = None).
Proof.
  intros Hh Hm Hsz e. subst e.
  destruct (TcpipFacts.pop_holds t _ _ m l Hh) as (h1 & M1 & Hpop & Hh1 & _).
  assert (Hm1 : h1 !! m = Some (set_next None mm)).
  { unfold pop in Hpop. destruct Hh as (Hlock & (Hf & _) & _).
    rewrite Hlock in Hpop. simpl in Hpop. rewrite Hf, Hm in Hpop.
    injection Hpop as <- <-. apply lookup_insert_eq. }
  assert (Hml : m ∉ l).
  { destruct Hh as (_ & _ & Hnd & _). apply NoDup_cons in Hnd as [Hnd _]. exact Hnd. }
  unfold tcpip_send_packets. rewrite Hpop, Hm1. simpl.
  destruct (decide (Z.to_nat (size mm) <= length (payload mm))) as [_|]; [|contradiction].
  destruct (retval =? -1)%Z eqn:E1; [|destruct (retval =? 0)%Z eqn:E0].
  - simpl. split; [exact Hh1|]. split; [reflexivity|]. split.
    + intros _. repeat split. exact Hm1.
    + intros Hn. apply Z.eqb_eq in E1. contradiction.
  - simpl. split; [exact Hh1|]. split; [reflexivity|]. split.
    + intros _. repeat split. exact Hm1.
    + intros _ Hn. apply Z.eqb_eq in E0. contradiction.
  - apply Z.eqb_neq in E1, E0. simpl.
    assert (Hdel : holds (delete m h1) M1 l).
    { destruct Hh1 as (H1 & H2 & H3 & H4). split; [exact H1|]. split; [|auto].
      apply chain_delete_other; assumption. }
    destruct (decide (callbackOut (sock w) = fn_null)) as [Hcb|Hcb].
    + destruct w as [h s a o c]; destruct s; simpl in *. rewrite Hcb. simpl.
      split; [exact Hdel|]. split; [reflexivity|]. split.
      * intros [?|?]; contradiction.
      * intros _ _. apply lookup_delete_eq.
    + destruct w as [h s a o c];
        destruct s as [pn stt cfd sfd wfd rfd ib ob cbi cbo cbc sy tr]; simpl in *.
      destruct (decide (cbo = fn_null)); [contradiction|].
      match goal with
      | |- context [dispatching ?f ?sf ?d ?ev ?w3 Finished] =>
          destruct (dispatching_world f sf d ev w3) as (Hheap & Hsock & Hoff & _);
          rewrite Hheap, Hsock, Hoff
      end.
      simpl. split; [exact Hdel|]. split; [reflexivity|]. split.
      * intros [?|?]; contradiction.
      * intros _ _. apply lookup_delete_eq.
Qed.

Lemma send_takes_message_off_first_witness :
  exists e,
    e = tcpip_send_packets 0 7 (-1)%Z []
          (mkWorld {[ 5 := mkMessage 2%Z [20%Z; 0%Z] None ]}
             (mkSocket 3333 4 0 0 9 9 (mkMailbox None None None)
                (mkMailbox (Some 5) (Some 5) None) fn_null fn_null fn_null ptreaty_init 3)
             Scenarios.booted [] []) /\
    holds (heap (world_of e)) (outbox (sock (world_of e))) [] /\
    offered (world_of e) = [(9%Z, [20%Z; 0%Z])].
Proof.
  eexists. split; [reflexivity|].
  destruct (send_takes_message_off_first 0 7 (-1)%Z []
              (mkWorld {[ 5 := mkMessage 2%Z [20%Z; 0%Z] None ]}
                 (mkSocket 3333 4 0 0 9 9 (mkMailbox None None None)
                    (mkMailbox (Some 5) (Some 5) None) fn_null fn_null fn_null ptreaty_init 3)
                 Scenarios.booted [] [])
              5 [] (mkMessage 2%Z [20%Z; 0%Z] None)) as (H1 & H2 & _).
  - split; [reflexivity|]. split.
    + simpl. split; [reflexivity|]. eexists. split; [apply lookup_singleton_eq|reflexivity].
    + split; [apply NoDup_singleton|]. intros _. reflexivity.
  - apply lookup_singleton_eq.
  - simpl. lia.
  - split; [exact H1 | exact H2].
Defined.

Lemma copy_result_app (i : nat) (bs pre mid post : list Z) :
  length pre = i + 2 -> length mid = length bs ->
  copy_result i bs (pre ++ mid ++ post) = pre ++ bs ++ post.
Proof.
  revert i pre mid. induction bs as [|b bs IH]; intros i pre mid Hpre Hmid.
  - destruct mid; [reflexivity|discriminate].
  - destruct mid as [|x mid]; [discriminate|]. simpl.
    rewrite <- Hpre.
    replace (length pre) with (length pre + 0) at 1 by lia.
    rewrite insert_app_r. cbn [insert list_insert].
    change (pre ++ b :: mid ++ post) with (pre ++ [b] ++ mid ++ post).
    rewrite (app_assoc pre [b]).
    rewrite (IH (S i) (pre ++ [b]) mid).
    + rewrite <- app_assoc. reflexivity.
    + rewrite length_app. simpl. lia.
    + simpl in Hmid. lia.
Qed.

Lemma fresh_payload (command sz : Z) (n : nat) :
  n <= 2045 ->
  <[1 := sz]> (<[0 := command]> (calloc 0%Z (MAX_PACKET_SIZE - 1)))
  = [command; sz] ++ replicate n 0%Z ++ replicate (2045 - n) 0%Z.
Proof.
  intros Hn. rewrite <- replicate_add.
  replace (n + (2045 - n)) with 2045 by lia. reflexivity.
Qed.

(** [tcpip_retrieve_packets], a packet with a body: the bytes read are a
    command, a size [sz] other than 0 and at most [sz] further bytes.
    The task allocates one message, appends it to the inbox behind the
    messages already there, and goes on to its dispatches: the callback,
    if one is set, and then itself. The payload is the command, the size
    byte and the body, zero-padded to 2047 bytes. The [size] field is one
    byte wide and holds [sz + 2] modulo 256: for a size byte of 254 or
    255 it reads 0 or 1. *)
Theorem retrieve_frames_message
    (t : tid) (self : ptr) (junk : option nat) (command sz : Z) (bs : list Z)
    (env1 env2 : list (realloc_reply Task)) (w : World) (l : list nat) :
  (0 < sz < 256)%Z -> length bs <= Z.to_nat sz ->
  holds (heap w) (inbox (sock w)) l ->
  exists m w1,
    heap w !! m = None /\
    holds (heap w1) (inbox (sock w1)) (l ++ [m]) /\
    heap w1 !! m
      = Some (mkMessage ((sz + 2) mod 256)
                ([command; sz] ++ bs ++ replicate (2045 - length bs) 0%Z) None) /\
    (forall k, k <> m -> heap w1 !! k = None -> heap w !! k = None) /\
    abbey w1 = abbey w /\ outbox (sock w1) = outbox (sock w) /\
    offered w1 = offered w /\ trials (sock w1) = trials (sock w) /\
    tcpip_retrieve_packets t self junk (Recv1Byte command) (Recv1Byte sz)
      (RecvnBytes bs) env1 env2 w
    = (if decide (callbackIn (sock w) = fn_null)
       then dispatching fn_tcpip_retrieve_packets self "retrieve packets" env2 w1 Finished
       else dispatching (callbackIn (sock w)) self "" env1 w1
              (fun w' => dispatching fn_tcpip_retrieve_packets self "retrieve packets"
                           env2 w' Finished)).
Proof.
  intros Hsz Hbs Hh.
  set (m := Poseta.malloc (heap w)).
  assert (Hfresh : heap w !! m = None) by apply RegistryFacts.malloc_fresh.
  assert (Hml : m ∉ l).
  { intros Hin. destruct Hh as (_ & Hc & _).
    destruct (TcpipFacts.chain_allocated _ _ _ _ Hc Hin) as [x Hx]. congruence. }
  assert (Hgot : take (Z.to_nat sz) bs = bs) by (apply take_ge; lia).
  assert (Hlen : length bs <= 2045) by lia.
  set (msg := mkMessage (uint8 (sz + 2))
                (copy_result 0 bs
                   (<[1 := sz]> (<[0 := command]> (calloc 0%Z (MAX_PACKET_SIZE - 1)))))
                junk).
  assert (Hpl : payload msg = [command; sz] ++ bs ++ replicate (2045 - length bs) 0%Z).
  { subst msg. cbn [payload]. rewrite (fresh_payload command sz (length bs) Hlen).
    apply copy_result_app; [reflexivity|apply length_replicate]. }
  assert (Hh' : holds (<[m := msg]> (heap w)) (inbox (sock w)) l).
  { destruct Hh as (H1 & H2 & H3 & H4). split; [exact H1|]. split; [|auto].
    apply TcpipFacts.chain_insert_other; assumption. }
  destruct (TcpipFacts.push_holds t _ _ l m Hh') as (h1 & M1 & Hpush & Hh1).
  { rewrite lookup_insert_eq. eauto. }
  { exact Hml. }
  assert (Hm1 : h1 !! m = Some (set_next None msg) /\
                forall k, k <> m -> h1 !! k = None -> heap w !! k = None).
  { unfold push in Hpush. destruct Hh' as (Hlock & _). rewrite Hlock in Hpush.
    simpl in Hpush.
    destruct (first (inbox (sock w))) as [f|].
    - destruct (last (inbox (sock w))) as [la|]; [|discriminate].
      destruct (<[m := msg]> (heap w) !! la) as [ml|] eqn:Ela; [|discriminate].
      destruct (decide (la = m)) as [->|Hla].
      + rewrite lookup_insert_eq in Ela. injection Ela as <-.
        rewrite lookup_insert_eq in Hpush. injection Hpush as <- _.
        split; [apply lookup_insert_eq|].
        intros k Hk. rewrite !lookup_insert_ne by congruence. auto.
      + rewrite lookup_insert_ne in Hpush by exact Hla.
        rewrite lookup_insert_eq in Hpush. injection Hpush as <- _.
        split; [apply lookup_insert_eq|].
        intros k Hk. rewrite lookup_insert_ne by congruence.
        destruct (decide (la = k)) as [->|Hlk].
        * rewrite lookup_insert_eq. discriminate.
        * rewrite !lookup_insert_ne by congruence. auto.
    - rewrite lookup_insert_eq in Hpush. injection Hpush as <- _.
      split; [apply lookup_insert_eq|].
      intros k Hk. rewrite !lookup_insert_ne by congruence. auto. }
  destruct Hm1 as [Hm1 Hothers].
  exists m, (with_sock (with_inbox M1 (sock w)) (with_heap h1 w)).
  split; [exact Hfresh|]. split.
  { destruct w as [h s a o c]; destruct s; exact Hh1. }
  split.
  { destruct w as [h s a o c]; cbn [heap with_sock with_heap]. rewrite Hm1.
    unfold set_next. rewrite Hpl. reflexivity. }
  split; [destruct w as [h s a o c]; exact Hothers|].
  split; [destruct w; reflexivity|].
  split; [destruct w as [h s a o c]; destruct s; reflexivity|].
  split; [destruct w; reflexivity|].
  split; [destruct w as [h s a o c]; destruct s; reflexivity|].
  unfold tcpip_retrieve_packets.
  destruct (sz =? 0)%Z eqn:E; [apply Z.eqb_eq in E; lia|].
  rewrite Hgot. fold m. fold msg. rewrite Hpush.
  assert (Hcb : callbackIn (sock (with_sock (with_inbox M1 (sock w)) (with_heap h1 w)))
                = callbackIn (sock w))
    by (destruct w as [h s a o c]; destruct s; reflexivity).
  rewrite Hcb. reflexivity.
Qed.

Lemma retrieve_frames_message_witness :
  exists m w1,
    holds (heap w1) (inbox (sock w1)) [5; m] /\
    heap w1 !! m
    = Some (mkMessage 5%Z ([20%Z; 3%Z] ++ [7%Z; 8%Z] ++ replicate (2045 - 2) 0%Z) None).
Proof.
  destruct (retrieve_frames_message 0 7 (Some 99) 20%Z 3%Z [7%Z; 8%Z] [] []
              (mkWorld {[ 5 := mkMessage 2%Z [20%Z; 0%Z] None ]}
                 (mkSocket 3333 4 0 0 9 9 (mkMailbox (Some 5) (Some 5) None)
                    (mkMailbox None None None) fn_null fn_null fn_null ptreaty_init 3)
                 Scenarios.booted [] [])
              [5]) as (m & w1 & _ & H1 & H2 & _).
  - lia.
  - simpl. lia.
  - split; [reflexivity|]. split.
    + simpl. split; [reflexivity|]. eexists. split; [apply lookup_singleton_eq|reflexivity].
    + split; [apply NoDup_singleton|]. intros _. reflexivity.
  - exists m, w1. split; [exact H1 | exact H2].
Defined.

Lemma dispatching_keeps (fn : funptr) (self : ptr) (d : string)
    (env : list (realloc_reply Task)) (w : World) (k : World -> ended)
    (P : World -> Prop) :
  (forall a, P (with_abbey a w)) ->
  (forall a, P (world_of (k (with_abbey a w)))) ->
  P (world_of (dispatching fn self d env w k)).
Proof.
  intros H1 H2. unfold dispatching.
  destruct (dispatch_described_task fn self d env (abbey w)); simpl; auto.
Qed.

(** [tcpip_retrieve_packets], whatever the three [recv] calls return and
    whatever the scheduler does with the dispatches: the retry budget
    [trials] is lowered by one when the first [recv] fails with errno
    107 and is otherwise left alone, so the listener never raises it; the
    two descriptors are closed at most once, and only on the way to a
    restart; the listener hands nothing to [send] and leaves the outbox
    alone; and unless a command byte was read, messages and inbox are
    untouched. *)
Theorem listener_never_restores_retry_budget
    (t : tid) (self : ptr) (junk : option nat) (r1 r2 : recv1) (r3 : recvn)
    (env1 env2 : list (realloc_reply Task)) (w : World) :
  let w' := world_of (tcpip_retrieve_packets t self junk r1 r2 r3 env1 env2 w) in
  trials (sock w')
  = (trials (sock w) - (if decide (r1 = Recv1Error 107) then 1 else 0))%Z /\
  closed w'
  = closed w ++
    match r1 with
    | Recv1Error errno =>
        if decide (errno = 107%Z /\ trials (sock w) <> 1%Z)
        then [cli_sockfd (sock w); serv_sockfd (sock w)] else []
    | Recv1Closed => [cli_sockfd (sock w); serv_sockfd (sock w)]
    | Recv1Byte _ => []
    end /\
  offered w' = offered w /\ outbox (sock w') = outbox (sock w) /\
  match r1 with
  | Recv1Byte _ => True
  | _ => heap w' = heap w /\ inbox (sock w') = inbox (sock w)
  end.
Proof.
  destruct w as [h s a o c];
    destruct s as [pn stt cfd sfd wfd rfd ib ob cbi cbo cbc sy tr].
  cbv zeta. unfold tcpip_retrieve_packets.
  destruct r1 as [errno| |command].
  - destruct (errno =? 107)%Z eqn:E.
    + apply Z.eqb_eq in E. subst errno.
      rewrite decide_True by reflexivity.
      cbn [sock trials with_sock with_trials].
      destruct (tr - 1 =? 0)%Z eqn:E1.
      * apply Z.eqb_eq in E1.
        rewrite decide_False by (intros [_ H]; apply H; simpl; lia).
        simpl. rewrite app_nil_r. repeat split; lia.
      * apply Z.eqb_neq in E1.
        rewrite decide_True by (split; [reflexivity|simpl; lia]).
        apply dispatching_keeps; intros; simpl; repeat split; lia.
    + apply Z.eqb_neq in E.
      rewrite decide_False by congruence.
      rewrite decide_False by (intros [H _]; congruence).
      simpl. rewrite app_nil_r. repeat split; lia.
  - rewrite decide_False by discriminate.
    apply dispatching_keeps; intros; simpl; repeat split; lia.
  - rewrite decide_False by discriminate.
    assert (Hloop : forall h' ib' a',
      let w1 := mkWorld h' (mkSocket pn stt cfd sfd wfd rfd ib' ob cbi cbo cbc sy tr) a' o c in
      let w' := world_of (dispatching fn_tcpip_retrieve_packets self "retrieve packets"
                            env2 w1 Finished) in
      trials (sock w') = (tr - 0)%Z /\ closed w' = c ++ [] /\ offered w' = o /\
      outbox (sock w') = ob /\ True).
    { intros h' ib' a'. cbv zeta.
      apply dispatching_keeps; intros; simpl; rewrite app_nil_r; repeat split; lia. }
    assert (Hplain : forall w1 : World, w1 = mkWorld h (mkSocket pn stt cfd sfd wfd rfd ib ob cbi cbo cbc sy tr) a o c ->
      trials (sock w1) = (tr - 0)%Z /\ closed w1 = c ++ [] /\ offered w1 = o /\
      outbox (sock w1) = ob /\ True).
    { intros w1 ->. simpl. rewrite app_nil_r. repeat split; lia. }
    cbn [sock trials closed offered outbox cli_sockfd serv_sockfd heap inbox callbackIn
         with_sock with_heap with_inbox].
    destruct r2 as [e2| |sz]; try apply Hloop.
    destruct (sz =? 0)%Z; [apply Hloop|].
    match goal with |- context [push ?t ?hh ?M ?m] => destruct (push t hh M m) as [[h' M']| |] end.
    + destruct (decide (cbi = fn_null)); [apply Hloop|].
      apply dispatching_keeps.
      * intros a'. simpl. rewrite app_nil_r. repeat split; lia.
      * intros a'. apply (Hloop h' M' a').
    + apply Hplain. reflexivity.
    + apply Hplain. reflexivity.
Qed.

End SocketFacts.
